(** * Gym-Frontend: registration and admin-session workflow

    A shallow embedding of the logic of
    - [src/components/RegistrationForm.tsx] (plan selection, photo selection,
      validation, multipart submission, error mapping),
    - [src/components/AdminLogin.tsx] (login submission with its timeout),
    - [App.tsx] (token bootstrap, logout, admin route),
    together with the properties stated about them.

    JavaScript strings are sequences of UTF-16 code units; they are modelled
    as lists of [N].  [localStorage] is a finite map from keys to strings.
    Asynchronous handlers are modelled by the effects they emit and by the
    continuation that runs when the awaited call settles. *)

From stdpp Require Import gmap strings list.
From Stdlib Require Import ZArith NArith Lia.

(** ** JavaScript strings *)

Module Js.

Abbreviation jsstring := (list N).

(** Code units of an ASCII literal of the source. *)
Fixpoint lit (s : string) : jsstring :=
  match s with
  | EmptyString => []
  | String a s' => Ascii.N_of_ascii a :: lit s'
  end.

Arguments lit : simpl never.

Fixpoint startsWith (s prefix : jsstring) : bool :=
  match prefix, s with
  | [], _ => true
  | _ :: _, [] => false
  | p :: prefix', c :: s' => N.eqb p c && startsWith s' prefix'
  end.

(** [s.includes(search)]: [search] occurs in [s] as a contiguous run. *)
Fixpoint includes (s search : jsstring) : bool :=
  startsWith s search ||
  match s with
  | [] => false
  | _ :: s' => includes s' search
  end.

(** The operand of [x || default] is falsy exactly when it is the empty
    string. *)
Definition or_default (x default : jsstring) : jsstring :=
  match x with
  | [] => default
  | _ :: _ => x
  end.

(** [\s] of ECMAScript regular expressions: WhiteSpace and LineTerminator. *)
Definition is_whitespace (c : N) : bool :=
  (N.eqb c 9 || N.eqb c 10 || N.eqb c 11 || N.eqb c 12 || N.eqb c 13 ||
   N.eqb c 32 || N.eqb c 160 || N.eqb c 5760 ||
   (N.leb 8192 c && N.leb c 8202) ||
   N.eqb c 8232 || N.eqb c 8233 || N.eqb c 8239 || N.eqb c 8287 ||
   N.eqb c 12288 || N.eqb c 65279)%N.

(** What can be thrown and caught: an [Error] (or a subclass) with its name
    and message, or a value that is not an [Error]. *)
Inductive Thrown : Type :=
| JsError (name : string) (message : jsstring)
| NotError.

(** [new Error(message)] *)
Definition Error (message : jsstring) : Thrown := JsError "Error" message.

(** [response.ok]: the status lies in 200..299. *)
Definition status_ok (status : N) : bool := (200 <=? status)%N && (status <=? 299)%N.

Definition AT : N := 64.
Definition DOT : N := 46.

Definition is_digit (c : N) : bool := (N.leb 48 c && N.leb c 57)%N.

End Js.

Import Js.

(** ** Regular expressions

    The two patterns of [handleSubmit] are anchored at both ends ([^ ... $],
    no flags), so [test] decides whether the whole string belongs to the
    language of the pattern.  The matcher works by derivatives. *)

Module Regex.

Inductive regex : Type :=
| Void : regex
| Eps : regex
| Class : (N -> bool) -> regex
| Seq : regex -> regex -> regex
| Alt : regex -> regex -> regex
| Star : regex -> regex.

(** [r+] *)
Definition Plus (r : regex) : regex := Seq r (Star r).

(** [r{n}] *)
Fixpoint Times (n : nat) (r : regex) : regex :=
  match n with
  | O => Eps
  | S n' => Seq r (Times n' r)
  end.

Definition Chr (c : N) : regex := Class (N.eqb c).

Fixpoint nullable (r : regex) : bool :=
  match r with
  | Void => false
  | Eps => true
  | Class _ => false
  | Seq r1 r2 => nullable r1 && nullable r2
  | Alt r1 r2 => nullable r1 || nullable r2
  | Star _ => true
  end.

Fixpoint deriv (c : N) (r : regex) : regex :=
  match r with
  | Void => Void
  | Eps => Void
  | Class p => if p c then Eps else Void
  | Seq r1 r2 =>
      if nullable r1
      then Alt (Seq (deriv c r1) r2) (deriv c r2)
      else Seq (deriv c r1) r2
  | Alt r1 r2 => Alt (deriv c r1) (deriv c r2)
  | Star r1 => Seq (deriv c r1) (Star r1)
  end.

(** [regex.test(s)] for a pattern anchored with [^] and [$]. *)
Fixpoint test (r : regex) (s : jsstring) : bool :=
  match s with
  | [] => nullable r
  | c :: s' => test (deriv c r) s'
  end.

(** The language of a pattern. *)
Inductive matches : regex -> jsstring -> Prop :=
| m_eps : matches Eps []
| m_class p c : p c = true -> matches (Class p) [c]
| m_seq r1 r2 s1 s2 :
    matches r1 s1 -> matches r2 s2 -> matches (Seq r1 r2) (s1 ++ s2)
| m_alt_l r1 r2 s : matches r1 s -> matches (Alt r1 r2) s
| m_alt_r r1 r2 s : matches r2 s -> matches (Alt r1 r2) s
| m_star_nil r : matches (Star r) []
| m_star_cons r s1 s2 :
    s1 <> [] -> matches r s1 -> matches (Star r) s2 ->
    matches (Star r) (s1 ++ s2).

End Regex.

Import Regex.

(** ** Dates

    A [Date] holds a time value: milliseconds since 1970-01-01T00:00:00Z.
    The calendar is the proleptic Gregorian one.  Local time differs from UTC
    by the offset [tza] (milliseconds, positive east of Greenwich) of the
    browser's time zone, taken constant here. *)

Module JsDate.

Local Open Scope Z_scope.

Definition msPerDay : Z := 86400000.

Definition Day (t : Z) : Z := t / msPerDay.
Definition TimeWithinDay (t : Z) : Z := t mod msPerDay.

(** Day number of year [y], month [m] (1..12), day of month [d]. *)
Definition days_from_civil (y m d : Z) : Z :=
  let y' := if m <=? 2 then y - 1 else y in
  let era := y' / 400 in
  let yoe := y' - era * 400 in
  let mp := if 2 <? m then m - 3 else m + 9 in
  let doy := (153 * mp + 2) / 5 + d - 1 in
  let doe := yoe * 365 + yoe / 4 - yoe / 100 + doy in
  era * 146097 + doe - 719468.

(** Year, month (1..12) and day of month of a day number. *)
Definition civil_from_days (z : Z) : Z * Z * Z :=
  let z' := z + 719468 in
  let era := z' / 146097 in
  let doe := z' - era * 146097 in
  let yoe := (doe - doe / 1460 + doe / 36524 - doe / 146096) / 365 in
  let doy := doe - (365 * yoe + yoe / 4 - yoe / 100) in
  let mp := (5 * doy + 2) / 153 in
  let d := doy - (153 * mp + 2) / 5 + 1 in
  let m := if mp <? 10 then mp + 3 else mp - 9 in
  let y := yoe + era * 400 in
  (if m <=? 2 then y + 1 else y, m, d).

Definition YearFromTime (t : Z) : Z := (civil_from_days (Day t)).1.1.
(** 0 is January. *)
Definition MonthFromTime (t : Z) : Z := (civil_from_days (Day t)).1.2 - 1.
Definition DateFromTime (t : Z) : Z := (civil_from_days (Day t)).2.

(** [MakeDay(year, month, date)]: [month] may lie outside 0..11 and [date]
    outside the month; both carry over. *)
Definition MakeDay (year month date : Z) : Z :=
  let ym := year + month / 12 in
  let mn := month mod 12 in
  days_from_civil ym (mn + 1) 1 + date - 1.

Definition MakeDate (day time : Z) : Z := day * msPerDay + time.

Section Zone.

Variable tza : Z.

Definition LocalTime (t : Z) : Z := t + tza.
Definition UTC (t : Z) : Z := t - tza.

Definition getDate (t : Z) : Z := DateFromTime (LocalTime t).
Definition getMonth (t : Z) : Z := MonthFromTime (LocalTime t).
Definition getFullYear (t : Z) : Z := YearFromTime (LocalTime t).

(** [date.setMonth(month, day)] *)
Definition setMonth (t month date : Z) : Z :=
  let l := LocalTime t in
  UTC (MakeDate (MakeDay (YearFromTime l) month date) (TimeWithinDay l)).

(** [date.setFullYear(year, month, day)] *)
Definition setFullYear (t year month date : Z) : Z :=
  let l := LocalTime t in
  UTC (MakeDate (MakeDay year month date) (TimeWithinDay l)).

(** Modelled from the spec: [addMonths] is imported from the date-fns
    package, whose source is not part of the repository.  It is the
    calendar-aware month addition the specification asks for: the day of
    month is kept, or clamped to the last day of the target month, and the
    time of day is kept.  As in the package, the fields are read and written
    with the local-time methods of [Date]. *)
Definition addMonths (date amount : Z) : Z :=
  if amount =? 0 then date
  else
    let dayOfMonth := getDate date in
    let endOfDesiredMonth := setMonth date (getMonth date + amount + 1) 0 in
    let daysInMonth := getDate endOfDesiredMonth in
    if daysInMonth <=? dayOfMonth then endOfDesiredMonth
    else setFullYear date (getFullYear endOfDesiredMonth)
                     (getMonth endOfDesiredMonth) dayOfMonth.

End Zone.

Definition digit (n : Z) : N := (48 + Z.to_N (n mod 10))%N.

Definition pad2 (n : Z) : jsstring := [digit (n / 10); digit n].
Definition pad3 (n : Z) : jsstring := digit (n / 100) :: pad2 n.
Definition pad4 (n : Z) : jsstring := digit (n / 1000) :: pad3 n.
Definition pad6 (n : Z) : jsstring := digit (n / 100000) :: digit (n / 10000) :: pad4 n.

(** Years 0..9999 print with four digits, others with a sign and six. *)
Definition isoYear (y : Z) : jsstring :=
  if (0 <=? y) && (y <=? 9999) then pad4 y
  else if y <? 0 then lit "-" ++ pad6 (- y)
  else lit "+" ++ pad6 y.

(** [date.toISOString()]: the UTC fields, [YYYY-MM-DDTHH:mm:ss.sssZ]. *)
Definition toISOString (t : Z) : jsstring :=
  let '(y, m, d) := civil_from_days (Day t) in
  let ms := TimeWithinDay t in
  isoYear y ++ lit "-" ++ pad2 m ++ lit "-" ++ pad2 d ++ lit "T" ++
  pad2 (ms / 3600000) ++ lit ":" ++ pad2 (ms / 60000 mod 60) ++ lit ":" ++
  pad2 (ms / 1000 mod 60) ++ lit "." ++ pad3 (ms mod 1000) ++ lit "Z".

(** [s.split('T')[0]]: the part of [s] before the first [T]. *)
Fixpoint split_T_0 (s : jsstring) : jsstring :=
  match s with
  | [] => []
  | c :: s' => if N.eqb c 84 then [] else c :: split_T_0 s'
  end.

(** [date.toISOString().split('T')[0]] *)
Definition isoDate (t : Z) : jsstring := split_T_0 (toISOString t).

(** The calendar of the specification's Date Calculator: dates given by
    year, month (1..12) and day of month. *)
Definition is_leap (y : Z) : bool :=
  ((y mod 4 =? 0) && negb (y mod 100 =? 0)) || (y mod 400 =? 0).

Definition days_in_month (y m : Z) : Z :=
  if m =? 2 then (if is_leap y then 29 else 28)
  else if (m =? 4) || (m =? 6) || (m =? 9) || (m =? 11) then 30
  else 31.

(** Calendar-correct month addition on civil dates: the month moves by [n],
    the day of month is clamped to the length of the target month. *)
Definition civil_add_months (ymd : Z * Z * Z) (n : Z) : Z * Z * Z :=
  let '(y, m, d) := ymd in
  let k := (m - 1) + n in
  let y' := y + k / 12 in
  let m' := k mod 12 + 1 in
  (y', m', Z.min d (days_in_month y' m')).

(** A date of the calendar. *)
Definition valid_date (y m d : Z) : Prop :=
  1 <= m <= 12 /\ 1 <= d <= days_in_month y m.

Definition civil_string (ymd : Z * Z * Z) : jsstring :=
  let '(y, m, d) := ymd in
  isoYear y ++ lit "-" ++ pad2 m ++ lit "-" ++ pad2 d.

(** Time value of a UTC date and time of day. *)
Definition utc (y m d hh mm : Z) : Z :=
  MakeDate (days_from_civil y m d) (hh * 3600000 + mm * 60000).

End JsDate.

(** ** Registration form ([RegistrationForm.tsx]) *)

Module Registration.

Import JsDate.

Inductive PlanId : Type := P1month | P2month | P3month | P6month | Pyearly.

Definition PlanId_string (p : PlanId) : jsstring :=
  match p with
  | P1month => lit "1month"
  | P2month => lit "2month"
  | P3month => lit "3month"
  | P6month => lit "6month"
  | Pyearly => lit "yearly"
  end.

Inductive PaymentMethod : Type := cash | online.

Definition PaymentMethod_string (p : PaymentMethod) : jsstring :=
  match p with
  | cash => lit "cash"
  | online => lit "online"
  end.

(** A [File] of the browser: what the form looks at is its size. *)
Record File : Type := { file_name : jsstring; size : N; content : list N }.

Record FormData : Type := {
  name : jsstring;
  email : jsstring;
  phone : jsstring;
  dob : jsstring;
  photo : option File;
  plan : PlanId;
  startDate : jsstring;
  endDate : jsstring;
  paymentMethod : PaymentMethod
}.

Record PlanOption : Type := {
  id : PlanId;
  plan_name : jsstring;
  price : N;
  months : Z
}.

Definition plans : list PlanOption :=
  [ {| id := P1month; plan_name := lit "1 Month"; price := 1500; months := 1 |};
    {| id := P2month; plan_name := lit "2 Months"; price := 2500; months := 2 |};
    {| id := P3month; plan_name := lit "3 Months"; price := 3500; months := 3 |};
    {| id := P6month; plan_name := lit "6 Months"; price := 5000; months := 6 |};
    {| id := Pyearly; plan_name := lit "1 Year"; price := 8000; months := 12 |} ].

(** The state of the component: its four [useState] cells. *)
Record State : Type := {
  formData : FormData;
  photoPreview : jsstring;
  selectedPlan : PlanId;
  isLoading : bool
}.

Inductive PartValue : Type :=
| Text (v : jsstring)
| Binary (f : File).

(** One [append] to the multipart body: field name and value. *)
Definition Part : Type := string * PartValue.

Inductive Effect : Type :=
| ToastError (msg : jsstring)
| ToastSuccess (msg : jsstring)
| ConsoleError
| ReadAsDataURL (f : File)
| Fetch (url : string) (method : string) (body : list Part)
| Navigate (path : string)
| SetIsLoading (b : bool).

Definition is_fetch (e : Effect) : bool :=
  match e with Fetch _ _ _ => true | _ => false end.

Definition is_read (e : Effect) : bool :=
  match e with ReadAsDataURL _ => true | _ => false end.

Definition with_photo (fd : FormData) (f : File) : FormData :=
  {| name := name fd; email := email fd; phone := phone fd; dob := dob fd;
     photo := Some f; plan := plan fd; startDate := startDate fd;
     endDate := endDate fd; paymentMethod := paymentMethod fd |}.

Definition with_plan (fd : FormData) (p : PlanId) (s e : jsstring) : FormData :=
  {| name := name fd; email := email fd; phone := phone fd; dob := dob fd;
     photo := photo fd; plan := p; startDate := s;
     endDate := e; paymentMethod := paymentMethod fd |}.

(** 1 * 1024 * 1024 *)
Definition photo_limit : N := 1 * 1024 * 1024.

(** [handlePhotoChange]; [file] is [e.target.files?.[0]].  The reader's
    [onloadend] callback is [photoLoaded]. *)
Definition handlePhotoChange (st : State) (file : option File) : State * list Effect :=
  match file with
  | Some f =>
      if (photo_limit <? size f)%N
      then (st, [ToastError (lit "Photo size should be less than 1MB")])
      else ({| formData := with_photo (formData st) f;
               photoPreview := photoPreview st;
               selectedPlan := selectedPlan st;
               isLoading := isLoading st |},
            [ReadAsDataURL f])
  | None => (st, [])
  end.

Definition photoLoaded (st : State) (result : jsstring) : State :=
  {| formData := formData st; photoPreview := result;
     selectedPlan := selectedPlan st; isLoading := isLoading st |}.

(** [handlePlanSelect]; [now] is the value of [new Date()], [tza] the offset
    of the browser's zone. *)
Definition handlePlanSelect (tza now : Z) (st : State) (p : PlanOption) : State :=
  let startDate := now in
  let endDate := addMonths tza startDate (months p) in
  {| formData := with_plan (formData st) (id p) (isoDate startDate) (isoDate endDate);
     photoPreview := photoPreview st;
     selectedPlan := id p;
     isLoading := isLoading st |}.

(** The initial state; the two [new Date()] of the initialiser are evaluated
    at [now1] and [now2]. *)
Definition initialState (tza now1 now2 : Z) : State :=
  {| formData :=
       {| name := []; email := []; phone := []; dob := []; photo := None;
          plan := P1month;
          startDate := isoDate now1;
          endDate := isoDate (addMonths tza now2 1);
          paymentMethod := online |};
     photoPreview := [];
     selectedPlan := P1month;
     isLoading := false |}.

(** *** [handleSubmit] *)

(** [/^[^\s@]+@[^\s@]+\.[^\s@]+$/] *)
Definition plain (c : N) : bool := negb (is_whitespace c || N.eqb c AT).

Definition emailRegex : regex :=
  Seq (Plus (Class plain))
    (Seq (Chr AT)
       (Seq (Plus (Class plain))
          (Seq (Chr DOT) (Plus (Class plain))))).

(** [/^[0-9]{10}$/] *)
Definition phoneRegex : regex := Times 10 (Class is_digit).

(** Values of the fields of [formData], as [formData[key]] reads them. *)
Inductive Value : Type :=
| VString (s : jsstring)
| VFile (f : File)
| VNull.

(** [Object.keys(formData)]: the own keys in creation order. *)
Definition keys : list string :=
  ["name"; "email"; "phone"; "dob"; "photo"; "plan"; "startDate"; "endDate";
   "paymentMethod"]%string.

Definition get (fd : FormData) (key : string) : Value :=
  if String.eqb key "name" then VString (name fd)
  else if String.eqb key "email" then VString (email fd)
  else if String.eqb key "phone" then VString (phone fd)
  else if String.eqb key "dob" then VString (dob fd)
  else if String.eqb key "photo" then
    match photo fd with Some f => VFile f | None => VNull end
  else if String.eqb key "plan" then VString (PlanId_string (plan fd))
  else if String.eqb key "startDate" then VString (startDate fd)
  else if String.eqb key "endDate" then VString (endDate fd)
  else if String.eqb key "paymentMethod" then
    VString (PaymentMethod_string (paymentMethod fd))
  else VNull.

(** [String(v)] *)
Definition String_of (v : Value) : jsstring :=
  match v with
  | VString s => s
  | VFile _ => lit "[object File]"
  | VNull => lit "null"
  end.

(** The body of the [forEach] over the keys. *)
Definition append_key (fd : FormData) (key : string) : Part :=
  match String.eqb key "photo", get fd key with
  | true, VFile f => ("photo"%string, Binary f)
  | _, v => (key, Text (String_of v))
  end.

Definition formDataToSend (fd : FormData) : list Part :=
  map (append_key fd) keys.

(** The registration endpoint as the form sees it: [fetch] rejects, or
    resolves to a response with a status whose [json()] yields an object with
    a [message], or rejects. *)
Record Response : Type := {
  status : N;
  json : Thrown + jsstring
}.

Definition ok (r : Response) : bool := status_ok (status r).

Inductive FetchOutcome : Type :=
| Rejected (e : Thrown)
| Resolved (r : Response).

(** Computations of the [try] block: the effects so far, and a thrown value
    or a result. *)
Definition Try (A : Type) : Type := list Effect * (Thrown + A).

Definition ret {A} (a : A) : Try A := ([], inr a).
Definition throw {A} (e : Thrown) : Try A := ([], inl e).
Definition emit (e : Effect) : Try unit := ([e], inr tt).
Definition bind {A B} (c : Try A) (k : A -> Try B) : Try B :=
  match c with
  | (es, inl e) => (es, inl e)
  | (es, inr a) => let '(es', r) := k a in (es ++ es', r)
  end.
Definition await {A} (r : Thrown + A) : Try A := ([], r).

Notation "'let*' x ':=' c 'in' k" := (bind c (fun x => k))
  (at level 10, x name, c at level 100, k at level 200).
Notation "c ';;' k" := (bind c (fun _ => k))
  (at level 100, k at level 200, right associativity).

Definition when (b : bool) (c : Try unit) : Try unit := if b then c else ret tt.

Definition register_url : string := "/api/users/register".

Definition duplicate_email_message : jsstring :=
  lit "This email is already registered. Please use a different email or try logging in.".
Definition duplicate_phone_message : jsstring :=
  lit "This phone number is already registered. Please use a different phone number.".

Section Submit.

(** The server and the network: the outcome of the one [fetch]. *)
Variable server : list Part -> FetchOutcome.

Definition fetch (body : list Part) : Try Response :=
  emit (Fetch register_url "POST" body) ;;
  match server body with
  | Rejected e => throw e
  | Resolved r => ret r
  end.

(** The statements of the [if (!response.ok)] block. *)
Definition not_ok_block (response : Response) : Try unit :=
  let* errorData := await (json response) in
  when (status response =? 400)%N
    (if includes errorData (lit "email") then
       throw (Error duplicate_email_message)
     else if includes errorData (lit "phone") then
       throw (Error duplicate_phone_message)
     else ret tt) ;;
  throw (Error (or_default errorData (lit "Registration failed. Please try again."))).

Definition try_block (fd : FormData) : Try unit :=
  when (negb (test emailRegex (email fd)))
    (throw (Error (lit "Please enter a valid email address"))) ;;
  when (negb (test phoneRegex (phone fd)))
    (throw (Error (lit "Please enter a valid 10-digit phone number"))) ;;
  let* response := fetch (formDataToSend fd) in
  when (negb (ok response)) (not_ok_block response) ;;
  await (json response) ;;
  emit (ToastSuccess (lit "Registration successful! Please check your email.")) ;;
  emit (Navigate "/thank-you").

Definition catch_block (error : Thrown) : list Effect :=
  ConsoleError ::
  match error with
  | JsError _ message =>
      if includes message (lit "email") then [ToastError message]
      else if includes message (lit "phone") then [ToastError message]
      else [ToastError (lit "Registration failed. Please check your information and try again.")]
  | NotError =>
      [ToastError (lit "An unexpected error occurred. Please try again later.")]
  end.

(** [handleSubmit]: every effect of one submission, in order. *)
Definition handleSubmit (fd : FormData) : list Effect :=
  SetIsLoading true ::
  (let '(es, r) := try_block fd in
   es ++ match r with inl error => catch_block error | inr _ => [] end) ++
  [SetIsLoading false].

End Submit.

(** The toasts of a run: what the user is told. *)
Definition toasts (es : list Effect) : list Effect :=
  List.filter (fun e => match e with ToastError _ | ToastSuccess _ => true | _ => false end) es.

(** The shape of an accepted e-mail address, as the specification words it. *)
Definition email_shape (s : jsstring) : Prop :=
  exists u v w : jsstring,
    s = u ++ AT :: v ++ DOT :: w /\
    u <> [] /\ v <> [] /\ w <> [] /\
    Forall (fun c => plain c = true) u /\
    Forall (fun c => plain c = true) v /\
    Forall (fun c => plain c = true) w.

(** The shape of an accepted phone number, as the specification words it. *)
Definition phone_shape (s : jsstring) : Prop :=
  length s = 10%nat /\ Forall (fun c => is_digit c = true) s.

Definition generic_failure_message : jsstring :=
  lit "Registration failed. Please check your information and try again.".

(** What the user is shown after a non-2xx response with body [{message}]. *)
Definition shown_message (status : N) (message : jsstring) : jsstring :=
  if (status =? 400)%N && includes message (lit "email") then
    duplicate_email_message
  else if (status =? 400)%N && includes message (lit "phone") then
    duplicate_phone_message
  else if includes message (lit "email") || includes message (lit "phone") then
    message
  else generic_failure_message.

(** The mapping as the specification words it: a message that mentions only
    the e-mail, only the phone, or both or neither. *)
Definition specified_message (message : jsstring) : jsstring :=
  match includes message (lit "email"), includes message (lit "phone") with
  | true, false => duplicate_email_message
  | false, true => duplicate_phone_message
  | _, _ => message
  end.

(** A draft that passes both validators, and servers that answer every
    request alike. *)
Definition sample_draft : FormData :=
  {| name := lit "Asha"; email := lit "asha@example.com";
     phone := lit "9662468784"; dob := lit "1999-05-02"; photo := None;
     plan := P1month; startDate := lit "2024-01-31";
     endDate := lit "2024-02-29"; paymentMethod := online |}.

Definition answering (st : N) (message : string) : list Part -> FetchOutcome :=
  fun _ => Resolved {| status := st; json := inr (lit message) |}.

Definition one_month : PlanOption :=
  {| id := P1month; plan_name := lit "1 Month"; price := 1500; months := 1 |}.

(** Zone offsets in milliseconds: India (+05:30) and New York in winter
    (-05:00). *)
Definition zone_india : Z := 19800000.
Definition zone_new_york : Z := -18000000.

Definition sample_file (n : N) : File :=
  {| file_name := lit "me.jpg"; size := n; content := [] |}.

End Registration.

(** ** Admin session ([App.tsx], [AdminLogin.tsx]) *)

Module Session.

(** The state of [App] and of the requests it has in flight. *)
Record App : Type := {
  isAdminLoggedIn : bool;
  localStorage : gmap string jsstring;
  (** the mount effect of [App] has run *)
  mounted : bool;
  (** the verification request has been sent and has not settled *)
  verifyInFlight : bool;
  (** login requests sent and not settled *)
  loginsInFlight : nat
}.

Record Credentials : Type := { cred_email : jsstring; password : jsstring }.

Record Request : Type := {
  url : string;
  method : string;
  authorization : option jsstring;
  body : option Credentials;
  (** an [AbortSignal] is attached *)
  signal : bool
}.

Inductive Effect : Type :=
| Fetch (r : Request)
| SetTimeout (ms : N)
| ClearTimeout
| ToastError (msg : jsstring)
| ToastSuccess (msg : jsstring)
| ConsoleError
| SetError (msg : jsstring)
| SetIsLoading (b : bool).

Definition is_fetch (e : Effect) : bool :=
  match e with Fetch _ => true | _ => false end.

Definition set_logged_in (a : App) (b : bool) : App :=
  {| isAdminLoggedIn := b; localStorage := localStorage a; mounted := mounted a;
     verifyInFlight := verifyInFlight a; loginsInFlight := loginsInFlight a |}.

Definition set_storage (a : App) (m : gmap string jsstring) : App :=
  {| isAdminLoggedIn := isAdminLoggedIn a; localStorage := m; mounted := mounted a;
     verifyInFlight := verifyInFlight a; loginsInFlight := loginsInFlight a |}.

(** [localStorage.removeItem('token')] *)
Definition removeToken (a : App) : App :=
  set_storage a (delete "token"%string (localStorage a)).

(** [localStorage.setItem('token', t)] *)
Definition setToken (a : App) (t : jsstring) : App :=
  set_storage a (<["token"%string := t]> (localStorage a)).

Definition verify_request (token : jsstring) : Request :=
  {| url := "/api/auth/verify"; method := "GET";
     authorization := Some (lit "Bearer " ++ token);
     body := None; signal := false |}.

Definition login_request (c : Credentials) : Request :=
  {| url := "/api/auth/login"; method := "POST"; authorization := None;
     body := Some c; signal := true |}.

(** *** [App] *)

(** The effect run once when [App] mounts, up to the [fetch]. *)
Definition useEffect (a : App) : App * list Effect :=
  match localStorage a !! "token"%string with
  | Some (c :: token) =>
      ({| isAdminLoggedIn := isAdminLoggedIn a; localStorage := localStorage a;
          mounted := true; verifyInFlight := true;
          loginsInFlight := loginsInFlight a |},
       [Fetch (verify_request (c :: token))])
  | _ =>
      ({| isAdminLoggedIn := isAdminLoggedIn a; localStorage := localStorage a;
          mounted := true; verifyInFlight := false;
          loginsInFlight := loginsInFlight a |}, [])
  end.

(** How the verification request settles: the promise resolves to a response
    or rejects.  Nothing else ends it. *)
Inductive VerifyOutcome : Type :=
| VResolved (status : N)
| VRejected.

(** The [.then] and [.catch] callbacks of the verification. *)
Definition verify_settled (a : App) (o : VerifyOutcome) : App * list Effect :=
  match o with
  | VResolved status =>
      if status_ok status then (set_logged_in a true, [])
      else (set_logged_in (removeToken a) false, [ConsoleError])
  | VRejected => (set_logged_in (removeToken a) false, [ConsoleError])
  end.

Definition handleLogout (a : App) : App :=
  set_logged_in (removeToken a) false.

(** The element of the [/admin] route. *)
Inductive View : Type := AdminPanel | AdminLogin.

Definition adminRoute (a : App) : View :=
  if isAdminLoggedIn a then AdminPanel else AdminLogin.

(** [onLogin] as [App] passes it to [AdminLogin]. *)
Definition onLogin (a : App) : App := set_logged_in a true.

(** *** [AdminLogin] *)

(** The parsed body of a login response. *)
Record LoginData : Type := {
  token : option jsstring;
  message : option jsstring
}.

(** How the login request settles: the 10 s timer fires first and aborts it,
    or [fetch] rejects, or it resolves to a response whose [json()] rejects
    or yields the body. *)
Inductive LoginOutcome : Type :=
| LTimeout
| LRejected (e : Thrown)
| LResolved (status : N) (json : Thrown + LoginData).

(** [handleSubmit] up to the [await fetch]. *)
Definition login_submit (c : Credentials) : list Effect :=
  [SetError []; SetIsLoading true; SetTimeout 10000; Fetch (login_request c)].

(** The [catch] block of [handleSubmit]. *)
Definition login_catch (err : Thrown) : list Effect :=
  ConsoleError ::
  match err with
  | JsError "AbortError" _ =>
      [SetError (lit "Request timed out. Please try again.");
       ToastError (lit "Request timed out. Please try again.")]
  | _ =>
      [SetError (lit "Something went wrong. Please try again.");
       ToastError (lit "Login failed. Please try again.")]
  end.

(** [data.token] is truthy. *)
Definition truthy (v : option jsstring) : bool :=
  match v with
  | Some (_ :: _) => true
  | _ => false
  end.

(** [data.message || 'Invalid email or password'] *)
Definition message_or (v : option jsstring) (default : jsstring) : jsstring :=
  match v with
  | Some m => or_default m default
  | None => default
  end.

(** [handleSubmit] from the point where the [fetch] settles. *)
Definition login_settled (a : App) (o : LoginOutcome) : App * list Effect :=
  match o with
  | LTimeout =>
      (a, login_catch (JsError "AbortError" (lit "The operation was aborted.")) ++
          [SetIsLoading false])
  | LRejected e => (a, login_catch e ++ [SetIsLoading false])
  | LResolved status (inl e) =>
      (a, ClearTimeout :: login_catch e ++ [SetIsLoading false])
  | LResolved status (inr data) =>
      if status_ok status then
        let a1 := if truthy (token data)
                  then setToken a (default [] (token data))
                  else a in
        (onLogin a1,
         [ClearTimeout; ToastSuccess (lit "Login successful!"); SetIsLoading false])
      else
        let errorMessage := message_or (message data) (lit "Invalid email or password") in
        (a, [ClearTimeout; SetError errorMessage; ToastError errorMessage;
             SetIsLoading false])
  end.

(** *** Runs of the application *)

Inductive Event : Type :=
| Mount
| VerifySettled (o : VerifyOutcome)
| LoginSubmit (c : Credentials)
| LoginSettled (o : LoginOutcome)
| Logout.

Definition set_verifyInFlight (a : App) (b : bool) : App :=
  {| isAdminLoggedIn := isAdminLoggedIn a; localStorage := localStorage a;
     mounted := mounted a; verifyInFlight := b;
     loginsInFlight := loginsInFlight a |}.

Definition set_loginsInFlight (a : App) (n : nat) : App :=
  {| isAdminLoggedIn := isAdminLoggedIn a; localStorage := localStorage a;
     mounted := mounted a; verifyInFlight := verifyInFlight a;
     loginsInFlight := n |}.

(** One event.  [None]: the event cannot happen in this state (the effect
    runs once; a callback needs its request in flight; the login form is
    rendered only while [isAdminLoggedIn] is false and the logout button only
    while it is true). *)
Definition step (a : App) (e : Event) : option (App * list Effect) :=
  match e with
  | Mount => if mounted a then None else Some (useEffect a)
  | VerifySettled o =>
      if verifyInFlight a
      then Some (verify_settled (set_verifyInFlight a false) o)
      else None
  | LoginSubmit c =>
      if mounted a && negb (isAdminLoggedIn a)
      then Some (set_loginsInFlight a (S (loginsInFlight a)), login_submit c)
      else None
  | LoginSettled o =>
      match loginsInFlight a with
      | O => None
      | S n => Some (login_settled (set_loginsInFlight a n) o)
      end
  | Logout =>
      if mounted a && isAdminLoggedIn a then Some (handleLogout a, []) else None
  end.

Fixpoint run (a : App) (es : list Event) : option (App * list Effect) :=
  match es with
  | [] => Some (a, [])
  | e :: es' =>
      match step a e with
      | None => None
      | Some (a', out) =>
          match run a' es' with
          | None => None
          | Some (a'', out') => Some (a'', out ++ out')
          end
      end
  end.

(** The application as it starts: [useState(false)], the storage as the
    browser kept it. *)
Definition init (storage : gmap string jsstring) : App :=
  {| isAdminLoggedIn := false; localStorage := storage; mounted := false;
     verifyInFlight := false; loginsInFlight := 0 |}.

(** The states of the specification's Session Manager. *)
Inductive SessionState : Type := anonymous | verifying | authenticated.

Definition session_state (a : App) : SessionState :=
  if isAdminLoggedIn a then authenticated
  else if verifyInFlight a then verifying
  else anonymous.

(** The result of a credential or verification call, when [e] is the point
    where such a call settles. *)
Definition call_result (e : Event) : option bool :=
  match e with
  | VerifySettled (VResolved status) => Some (status_ok status)
  | VerifySettled VRejected => Some false
  | LoginSettled (LResolved status (inr _)) => Some (status_ok status)
  | LoginSettled _ => Some false
  | _ => None
  end.




(** Events that are not the settling of a request and not a logout: what
    can happen while the server stays silent. *)
Definition silent (e : Event) : bool :=
  match e with
  | Mount | LoginSubmit _ => true
  | _ => false
  end.

Definition sample_credentials : Credentials :=
  {| cred_email := lit "admin@stargym.in"; password := lit "secret" |}.

Definition stored (t : string) : gmap string jsstring :=
  {[ "token"%string := lit t ]}.


End Session.

(** ** The registration form as a component

    The handlers of [RegistrationForm.tsx] that the inputs and buttons are
    wired to, and the runs of the component: one event at a time, each seeing
    the state the previous one left. *)

Module Form.

Import JsDate Registration.

(** [{ ...formData, name: v }] and its siblings. *)
Definition with_name (fd : FormData) (v : jsstring) : FormData :=
  {| name := v; email := email fd; phone := phone fd; dob := dob fd;
     photo := photo fd; plan := plan fd; startDate := startDate fd;
     endDate := endDate fd; paymentMethod := paymentMethod fd |}.

Definition with_email (fd : FormData) (v : jsstring) : FormData :=
  {| name := name fd; email := v; phone := phone fd; dob := dob fd;
     photo := photo fd; plan := plan fd; startDate := startDate fd;
     endDate := endDate fd; paymentMethod := paymentMethod fd |}.

Definition with_phone (fd : FormData) (v : jsstring) : FormData :=
  {| name := name fd; email := email fd; phone := v; dob := dob fd;
     photo := photo fd; plan := plan fd; startDate := startDate fd;
     endDate := endDate fd; paymentMethod := paymentMethod fd |}.

Definition with_dob (fd : FormData) (v : jsstring) : FormData :=
  {| name := name fd; email := email fd; phone := phone fd; dob := v;
     photo := photo fd; plan := plan fd; startDate := startDate fd;
     endDate := endDate fd; paymentMethod := paymentMethod fd |}.

Definition with_paymentMethod (fd : FormData) (v : PaymentMethod) : FormData :=
  {| name := name fd; email := email fd; phone := phone fd; dob := dob fd;
     photo := photo fd; plan := plan fd; startDate := startDate fd;
     endDate := endDate fd; paymentMethod := v |}.

Definition setFormData (st : State) (fd : FormData) : State :=
  {| formData := fd; photoPreview := photoPreview st;
     selectedPlan := selectedPlan st; isLoading := isLoading st |}.

Definition setIsLoading (st : State) (b : bool) : State :=
  {| formData := formData st; photoPreview := photoPreview st;
     selectedPlan := selectedPlan st; isLoading := b |}.

(** [selectedPlan === plan.id] *)
Definition PlanId_eqb (a b : PlanId) : bool :=
  match a, b with
  | P1month, P1month | P2month, P2month | P3month, P3month
  | P6month, P6month | Pyearly, Pyearly => true
  | _, _ => false
  end.

(** The plan buttons that are drawn highlighted. *)
Definition highlighted (st : State) : list PlanOption :=
  List.filter (fun p => PlanId_eqb (selectedPlan st) (id p)) plans.

(** [handleSubmit] up to its [await fetch]: the effects, and the body of the
    request when one is sent. *)
Definition submit_start (fd : FormData) : list Effect * option (list Part) :=
  if negb (test emailRegex (email fd)) then
    (SetIsLoading true ::
       catch_block (Error (lit "Please enter a valid email address")) ++
       [SetIsLoading false], None)
  else if negb (test phoneRegex (phone fd)) then
    (SetIsLoading true ::
       catch_block (Error (lit "Please enter a valid 10-digit phone number")) ++
       [SetIsLoading false], None)
  else
    ([SetIsLoading true; Fetch register_url "POST" (formDataToSend fd)],
     Some (formDataToSend fd)).

(** The rest of the [try] block, from the point where the [fetch] settles. *)
Definition after_fetch (o : FetchOutcome) : Try unit :=
  let* response := match o with
                   | Rejected e => throw e
                   | Resolved r => ret r
                   end in
  when (negb (ok response)) (not_ok_block response) ;;
  await (json response) ;;
  emit (ToastSuccess (lit "Registration successful! Please check your email.")) ;;
  emit (Navigate "/thank-you").

(** [handleSubmit] from the point where the [fetch] settles. *)
Definition submit_settled (o : FetchOutcome) : list Effect :=
  (let '(es, r) := after_fetch o in
   es ++ match r with inl error => catch_block error | inr _ => [] end) ++
  [SetIsLoading false].

(** The component with what it waits for. *)
Record Form : Type := {
  state : State;
  (** the registration request sent and not settled *)
  awaiting : option (list Part);
  (** file reads started and not finished *)
  reading : nat
}.

Inductive Event : Type :=
| ChangeName (v : jsstring)
| ChangeEmail (v : jsstring)
| ChangePhone (v : jsstring)
| ChangeDob (v : jsstring)
| ChangePaymentMethod (v : PaymentMethod)
| PhotoChange (file : option File)
| PhotoLoaded (result : jsstring)
| PlanClick (i : nat) (now : Z)
| Submit
| Settled (o : FetchOutcome).

Definition edit (f : Form) (fd : FormData) : option (Form * list Effect) :=
  Some ({| state := setFormData (state f) fd; awaiting := awaiting f;
           reading := reading f |}, []).

(** One event.  [None]: the event cannot happen in this state (the submit
    button is disabled while [isLoading]; a callback needs its request or its
    read in progress; the plan buttons are those of the table).  The runs go
    on after the form has navigated away, where the component is gone: they
    include every run of the component. *)
Definition step (tza : Z) (f : Form) (e : Event) : option (Form * list Effect) :=
  match e with
  | ChangeName v => edit f (with_name (formData (state f)) v)
  | ChangeEmail v => edit f (with_email (formData (state f)) v)
  | ChangePhone v => edit f (with_phone (formData (state f)) v)
  | ChangeDob v => edit f (with_dob (formData (state f)) v)
  | ChangePaymentMethod v => edit f (with_paymentMethod (formData (state f)) v)
  | PhotoChange file =>
      let '(st, out) := handlePhotoChange (state f) file in
      Some ({| state := st; awaiting := awaiting f;
               reading := reading f + length (List.filter is_read out) |}, out)
  | PhotoLoaded result =>
      match reading f with
      | O => None
      | S n => Some ({| state := photoLoaded (state f) result;
                        awaiting := awaiting f; reading := n |}, [])
      end
  | PlanClick i now =>
      match nth_error plans i with
      | Some p => Some ({| state := handlePlanSelect tza now (state f) p;
                           awaiting := awaiting f; reading := reading f |}, [])
      | None => None
      end
  | Submit =>
      if isLoading (state f) then None
      else
        let '(out, sent) := submit_start (formData (state f)) in
        Some ({| state := setIsLoading (state f)
                            (match sent with Some _ => true | None => false end);
                 awaiting := sent; reading := reading f |}, out)
  | Settled o =>
      match awaiting f with
      | Some _ => Some ({| state := setIsLoading (state f) false;
                           awaiting := None; reading := reading f |},
                        submit_settled o)
      | None => None
      end
  end.

Fixpoint run (tza : Z) (f : Form) (es : list Event) : option (Form * list Effect) :=
  match es with
  | [] => Some (f, [])
  | e :: es' =>
      match step tza f e with
      | None => None
      | Some (f', out) =>
          match run tza f' es' with
          | None => None
          | Some (f'', out') => Some (f'', out ++ out')
          end
      end
  end.

(** The component as it mounts. *)
Definition start (tza now1 now2 : Z) : Form :=
  {| state := initialState tza now1 now2; awaiting := None; reading := 0 |}.

(** A part of a request body respects the size limit of photos. *)
Definition part_within_limit (p : Part) : Prop :=
  match p.2 with
  | Binary f => (size f <= photo_limit)%N
  | Text _ => True
  end.

Definition request_within_limit (e : Effect) : Prop :=
  match e with
  | Fetch _ _ body => Forall part_within_limit body
  | _ => True
  end.

Definition is_navigate (e : Effect) : bool :=
  match e with Navigate _ => true | _ => false end.

(** The request was answered with a 2xx status and a body that parses. *)
Definition succeeded (o : FetchOutcome) : bool :=
  match o with
  | Resolved r => ok r && match json r with inr _ => true | inl _ => false end
  | Rejected _ => false
  end.

(** The instant at which the local date is [y]-[m]-[d] and the local time of
    day is [T] milliseconds, in the zone of offset [tza]. *)
Definition local_instant (tza y m d T : Z) : Z :=
  (MakeDate (days_from_civil y m d) T - tza)%Z.

Definition day_number (ymd : Z * Z * Z) : Z :=
  let '(y, m, d) := ymd in days_from_civil y m d.

(** What every state of a run satisfies. *)
Definition form_inv (f : Form) : Prop :=
  (forall g, photo (formData (state f)) = Some g ->
             (size g <= photo_limit)%N) /\
  selectedPlan (state f) = plan (formData (state f)) /\
  isLoading (state f) =
    match awaiting f with Some _ => true | None => false end.

Definition is_settled (e : Event) : bool :=
  match e with Settled _ => true | _ => false end.

Definition sample_run : list Event :=
  [ChangeName (lit "Asha"); ChangeEmail (lit "asha@example.com");
   ChangePhone (lit "9662468784"); PlanClick 3 1706700000000;
   PhotoChange (Some (sample_file 2097152));
   PhotoChange (Some (sample_file 4096));
   Submit].

End Form.

(** ** Dates in a zone whose offset changes

    The offset in force depends on the instant: [offset t] for the UTC
    instant [t], [offset_local l] for the local time [l].  Time values
    beyond 8.64e15 ms in either direction do not exist: a [Date] set to one
    is invalid, and [toISOString] of an invalid [Date] throws. *)

Module Zoned.

Import JsDate Registration.

Local Open Scope Z_scope.

(** [TimeClip]; [None] is the invalid date. *)
Definition TimeClip (t : Z) : option Z :=
  if Z.abs t <=? 8640000000000000 then Some t else None.

Section Zone.

Variable offset : Z -> Z.
Variable offset_local : Z -> Z.

Definition LocalTime (t : Z) : Z := t + offset t.
Definition UTC (l : Z) : Z := l - offset_local l.

Definition getDate (t : Z) : Z := DateFromTime (LocalTime t).
Definition getMonth (t : Z) : Z := MonthFromTime (LocalTime t).
Definition getFullYear (t : Z) : Z := YearFromTime (LocalTime t).

Definition setMonth (t month date : Z) : option Z :=
  let l := LocalTime t in
  TimeClip (UTC (MakeDate (MakeDay (YearFromTime l) month date) (TimeWithinDay l))).

Definition setFullYear (t year month date : Z) : option Z :=
  let l := LocalTime t in
  TimeClip (UTC (MakeDate (MakeDay year month date) (TimeWithinDay l))).

(** Modelled from the spec: [addMonths] of the date-fns package, as in
    [JsDate.addMonths]; when the end of the desired month is invalid the
    comparison with its day of month is false and the result is invalid. *)
Definition addMonths (date amount : Z) : option Z :=
  if amount =? 0 then Some date
  else
    let dayOfMonth := getDate date in
    match setMonth date (getMonth date + amount + 1) 0 with
    | None => None
    | Some endOfDesiredMonth =>
        let daysInMonth := getDate endOfDesiredMonth in
        if daysInMonth <=? dayOfMonth then Some endOfDesiredMonth
        else setFullYear date (getFullYear endOfDesiredMonth)
                         (getMonth endOfDesiredMonth) dayOfMonth
    end.

(** [handlePlanSelect] at the valid instant [now]; [None]: the end date is
    invalid and [toISOString] throws. *)
Definition handlePlanSelect (now : Z) (st : State) (p : PlanOption) : option State :=
  let startDate := now in
  match addMonths startDate (months p) with
  | Some endDate =>
      Some {| formData := with_plan (formData st) (id p)
                            (isoDate startDate) (isoDate endDate);
              photoPreview := photoPreview st;
              selectedPlan := id p;
              isLoading := isLoading st |}
  | None => None
  end.

End Zone.

(** The zone has the fixed offset [tza]: no daylight-saving change. *)
Definition fixed_offset (offset offset_local : Z -> Z) (tza : Z) : Prop :=
  (forall t, offset t = tza) /\ (forall l, offset_local l = tza).

End Zoned.

(** ** Page loads and what the admin is shown *)

Module Admin.

Import Session.

Definition is_verify (e : Effect) : bool :=
  match e with
  | Fetch r => String.eqb (url r) "/api/auth/verify"
  | _ => false
  end.

Definition toasts (es : list Effect) : list Effect :=
  List.filter (fun e => match e with ToastError _ | ToastSuccess _ => true | _ => false end) es.

(** The application as the next page load starts it: the state is new, the
    storage is what the previous page left. *)
Definition reload (a : App) : App := init (localStorage a).

End Admin.

(** ** The earlier versions of the two forms

    [part_001] is an earlier [AdminLogin], [part_002] an earlier
    [RegistrationForm]. *)

Module Legacy.

Import Session.

(** [String(data.token)] as [setItem] stores it; [None] is a body without
    the property. *)
Definition stored_text (v : option jsstring) : jsstring :=
  match v with
  | Some t => t
  | None => lit "undefined"
  end.

Definition login_request (c : Credentials) : Request :=
  {| url := "/api/auth/login"; method := "POST"; authorization := None;
     body := Some c; signal := false |}.

(** [handleSubmit] of [part_001] up to the [await fetch]. *)
Definition login_submit (c : Credentials) : list Effect :=
  [SetError []; SetIsLoading true; Fetch (login_request c)].

(** How the request settles; no timer can end it. *)
Inductive LoginOutcome : Type :=
| LRejected (e : Thrown)
| LResolved (status : N) (json : Thrown + LoginData).

Definition login_catch : list Effect :=
  [ConsoleError; SetError (lit "Something went wrong. Please try again.");
   ToastError (lit "Login failed")].

(** [handleSubmit] of [part_001] from the point where the [fetch] settles. *)
Definition login_settled (a : App) (o : LoginOutcome) : App * list Effect :=
  match o with
  | LRejected e => (a, login_catch ++ [SetIsLoading false])
  | LResolved status (inl e) => (a, login_catch ++ [SetIsLoading false])
  | LResolved status (inr data) =>
      if status_ok status then
        (onLogin (setToken a (stored_text (token data))),
         [ToastSuccess (lit "Login successful!"); SetIsLoading false])
      else
        (a, [SetError (message_or (message data) (lit "Invalid email or password"));
             ToastError (message_or (message data) (lit "Login failed"));
             SetIsLoading false])
  end.

(** The same outcome as the present [AdminLogin] sees it when the request
    settles before its 10 s timer fires; when the timer fires first it sees
    [Session.LTimeout] whatever the request would have brought. *)
Definition present (o : LoginOutcome) : Session.LoginOutcome :=
  match o with
  | LRejected e => Session.LRejected e
  | LResolved status json => Session.LResolved status json
  end.

(** *** [handleSubmit] of [part_002] *)

Inductive Effect : Type :=
| ConsoleLog
| ConsoleError
| Fetch (url : string) (method : string) (body : list Registration.Part)
| ToastError (msg : jsstring)
| ToastSuccess (msg : jsstring)
| Navigate (path : string)
| SetIsLoading (b : bool).

Definition is_fetch (e : Effect) : bool :=
  match e with Fetch _ _ _ => true | _ => false end.

Definition toasts (es : list Effect) : list Effect :=
  List.filter (fun e => match e with ToastError _ | ToastSuccess _ => true | _ => false end) es.

Inductive PlanId : Type := L1month | Lquarterly | Lyearly.

Definition PlanId_string (p : PlanId) : jsstring :=
  match p with
  | L1month => lit "1month"
  | Lquarterly => lit "quarterly"
  | Lyearly => lit "yearly"
  end.

Record FormData : Type := {
  name : jsstring;
  email : jsstring;
  phone : jsstring;
  dob : jsstring;
  photo : option Registration.File;
  plan : PlanId;
  startDate : jsstring;
  endDate : jsstring;
  paymentMethod : Registration.PaymentMethod
}.

Definition get (fd : FormData) (key : string) : Registration.Value :=
  if String.eqb key "name" then Registration.VString (name fd)
  else if String.eqb key "email" then Registration.VString (email fd)
  else if String.eqb key "phone" then Registration.VString (phone fd)
  else if String.eqb key "dob" then Registration.VString (dob fd)
  else if String.eqb key "photo" then
    match photo fd with
    | Some f => Registration.VFile f
    | None => Registration.VNull
    end
  else if String.eqb key "plan" then Registration.VString (PlanId_string (plan fd))
  else if String.eqb key "startDate" then Registration.VString (startDate fd)
  else if String.eqb key "endDate" then Registration.VString (endDate fd)
  else if String.eqb key "paymentMethod" then
    Registration.VString (Registration.PaymentMethod_string (paymentMethod fd))
  else Registration.VNull.

Definition append_key (fd : FormData) (key : string) : Registration.Part :=
  match String.eqb key "photo", get fd key with
  | true, Registration.VFile f => ("photo"%string, Registration.Binary f)
  | _, v => (key, Registration.Text (Registration.String_of v))
  end.

Definition formDataToSend (fd : FormData) : list Registration.Part :=
  map (append_key fd) Registration.keys.

(** [error instanceof Error ? error.message : 'Registration failed'] *)
Definition catch_block (error : Thrown) : list Effect :=
  [ConsoleError;
   ToastError (match error with
               | JsError _ message => message
               | NotError => lit "Registration failed"
               end)].

Definition handleSubmit (server : list Registration.Part -> Registration.FetchOutcome)
    (fd : FormData) : list Effect :=
  let body := formDataToSend fd in
  [SetIsLoading true; ConsoleLog; Fetch Registration.register_url "POST" body] ++
  match server body with
  | Registration.Rejected e => catch_block e
  | Registration.Resolved r =>
      match Registration.ok r, Registration.json r with
      | _, inl e => catch_block e
      | false, inr message =>
          catch_block (Error (or_default message (lit "Registration failed")))
      | true, inr _ =>
          [ToastSuccess (lit "Registration successful! Please check your email.");
           Navigate "/thank-you"]
      end
  end ++ [SetIsLoading false].

End Legacy.

(** * Properties *)

Import Registration.

(** ** The matcher decides the language of a pattern *)

Section MatcherFacts.

Lemma matches_nullable r : nullable r = true <-> matches r [].
Proof.
  split.
  - induction r; simpl; intros H; try discriminate.
    + constructor.
    + apply andb_true_iff in H as [H1 H2].
      change (@nil N) with (@nil N ++ []). constructor; auto.
    + apply orb_true_iff in H as [H|H]; [apply m_alt_l | apply m_alt_r]; auto.
    + constructor.
  - intros H. remember [] as s eqn:Hs.
    induction H; simpl; auto; try discriminate.
    + apply app_eq_nil in Hs as [-> ->].
      rewrite IHmatches1, IHmatches2; auto.
    + rewrite IHmatches; auto.
    + rewrite IHmatches, orb_true_r; auto.
Qed.

Lemma matches_deriv_sound c r s : matches (deriv c r) s -> matches r (c :: s).
Proof.
  revert s. induction r; simpl; intros s H.
  - inversion H.
  - inversion H.
  - destruct (b c) eqn:Hb; inversion H; subst. constructor; auto.
  - assert (Hseq : forall s, matches (Seq (deriv c r1) r2) s ->
                             matches (Seq r1 r2) (c :: s)).
    { intros s0 H0. inversion H0; subst.
      change (c :: s1 ++ s2) with ((c :: s1) ++ s2). constructor; auto. }
    destruct (nullable r1) eqn:Hn; auto.
    inversion H; subst; auto.
    change (c :: s) with ([] ++ c :: s). constructor; auto.
    apply matches_nullable; auto.
  - inversion H; subst; [apply m_alt_l | apply m_alt_r]; auto.
  - inversion H; subst.
    change (c :: s1 ++ s2) with ((c :: s1) ++ s2).
    constructor; auto; discriminate.
Qed.

Lemma matches_deriv_complete c r s : matches r (c :: s) -> matches (deriv c r) s.
Proof.
  intros H. remember (c :: s) as cs eqn:Hcs. revert c s Hcs.
  induction H; intros c0 s0 Hcs; simpl; try discriminate.
  - injection Hcs as -> <-. rewrite H. constructor.
  - destruct s1 as [|c1 s1]; simpl in Hcs.
    + subst s2. assert (Hn : nullable r1 = true) by (apply matches_nullable; auto).
      rewrite Hn. apply m_alt_r. auto.
    + injection Hcs as -> <-.
      destruct (nullable r1); [apply m_alt_l|]; constructor; auto.
  - apply m_alt_l; auto.
  - apply m_alt_r; auto.
  - destruct s1 as [|c1 s1]; [congruence|]. simpl in Hcs.
    injection Hcs as -> <-. constructor; auto.
Qed.

Theorem test_matches r s : test r s = true <-> matches r s.
Proof.
  revert r. induction s as [|c s IH]; intros r; simpl.
  - apply matches_nullable.
  - rewrite IH. split; [apply matches_deriv_sound | apply matches_deriv_complete].
Qed.

Lemma matches_seq r1 r2 s :
  matches (Seq r1 r2) s <->
  exists s1 s2, s = s1 ++ s2 /\ matches r1 s1 /\ matches r2 s2.
Proof.
  split.
  - intros H. inversion H; subst. eauto.
  - intros (s1 & s2 & -> & H1 & H2). constructor; auto.
Qed.

Lemma matches_class p s :
  matches (Class p) s <-> exists c, s = [c] /\ p c = true.
Proof.
  split.
  - intros H. inversion H; subst. eauto.
  - intros (c & -> & H). constructor; auto.
Qed.

Lemma matches_chr c s : matches (Chr c) s <-> s = [c].
Proof.
  unfold Chr. rewrite matches_class. split.
  - intros (c' & -> & H). apply N.eqb_eq in H. subst; auto.
  - intros ->. exists c. split; auto. apply N.eqb_refl.
Qed.

Lemma matches_star_class p s :
  matches (Star (Class p)) s <-> Forall (fun c => p c = true) s.
Proof.
  split.
  - intros H. remember (Star (Class p)) as r eqn:Hr.
    induction H; try discriminate.
    + constructor.
    + injection Hr as ->. inversion H0; subst. simpl. constructor; auto.
  - induction 1 as [|c s Hc Hs IH].
    + constructor.
    + change (c :: s) with ([c] ++ s).
      apply m_star_cons; [discriminate | constructor; auto | auto].
Qed.

Lemma matches_plus_class p s :
  matches (Plus (Class p)) s <-> s <> [] /\ Forall (fun c => p c = true) s.
Proof.
  unfold Plus. rewrite matches_seq. split.
  - intros (s1 & s2 & -> & H1 & H2).
    apply matches_class in H1 as (c & -> & Hc).
    apply matches_star_class in H2. split; [discriminate|].
    simpl. constructor; auto.
  - intros [Hne H]. destruct s as [|c s]; [congruence|].
    inversion H; subst. exists [c], s. split; auto. split.
    + constructor; auto.
    + apply matches_star_class; auto.
Qed.

Lemma matches_times_class p n s :
  matches (Times n (Class p)) s <->
  length s = n /\ Forall (fun c => p c = true) s.
Proof.
  revert s. induction n as [|n IH]; intros s; simpl.
  - split.
    + intros H. inversion H; subst. split; auto.
    + intros [Hl _]. destruct s; [constructor | discriminate].
  - rewrite matches_seq. split.
    + intros (s1 & s2 & -> & H1 & H2).
      apply matches_class in H1 as (c & -> & Hc).
      apply IH in H2 as [Hl Hf]. simpl. split; [congruence | constructor; auto].
    + intros [Hl Hf]. destruct s as [|c s]; [discriminate|].
      inversion Hf; subst. exists [c], s. split; auto. split.
      * constructor; auto.
      * apply IH. split; auto.
Qed.

End MatcherFacts.

(** ** The validators of [handleSubmit] *)

Lemma emailRegex_shape s : test emailRegex s = true <-> email_shape s.
Proof.
  rewrite test_matches. unfold emailRegex, email_shape.
  rewrite matches_seq. split.
  - intros (u & s1 & -> & Hu & H1).
    apply matches_seq in H1 as (a & s2 & -> & Ha & H2).
    apply matches_chr in Ha as ->.
    apply matches_seq in H2 as (v & s3 & -> & Hv & H3).
    apply matches_seq in H3 as (d & w & -> & Hd & Hw).
    apply matches_chr in Hd as ->.
    apply matches_plus_class in Hu as [? ?].
    apply matches_plus_class in Hv as [? ?].
    apply matches_plus_class in Hw as [? ?].
    exists u, v, w. simpl. repeat split; auto.
  - intros (u & v & w & -> & Hu & Hv & Hw & Fu & Fv & Fw).
    exists u, (AT :: v ++ DOT :: w). split; auto. split.
    { apply matches_plus_class; auto. }
    apply matches_seq. exists [AT], (v ++ DOT :: w). split; auto. split.
    { apply matches_chr; auto. }
    apply matches_seq. exists v, (DOT :: w). split; auto. split.
    { apply matches_plus_class; auto. }
    apply matches_seq. exists [DOT], w. split; auto. split.
    { apply matches_chr; auto. }
    apply matches_plus_class; auto.
Qed.

Lemma phoneRegex_shape s : test phoneRegex s = true <-> phone_shape s.
Proof.
  rewrite test_matches. unfold phoneRegex, phone_shape.
  apply matches_times_class.
Qed.

Lemma not_true_false (b : bool) : ~ b = true -> b = false.
Proof. destruct b; congruence. Qed.

Lemma email_without_at s : ~ In AT s -> test emailRegex s = false.
Proof.
  intros H. apply not_true_false. intros Ht.
  apply emailRegex_shape in Ht as (u & v & w & -> & _).
  apply H. apply in_or_app. right. left. reflexivity.
Qed.

Lemma email_without_dot_after_at s :
  (forall u v, s = u ++ AT :: v -> ~ In DOT v) -> test emailRegex s = false.
Proof.
  intros H. apply not_true_false. intros Ht.
  apply emailRegex_shape in Ht as (u & v & w & -> & _).
  apply (H u (v ++ DOT :: w) eq_refl).
  apply in_or_app. right. left. reflexivity.
Qed.

(** No request leaves the browser when a validator rejects. *)
Lemma email_rejected_no_fetch server fd :
  test emailRegex (email fd) = false ->
  Forall (fun e => is_fetch e = false) (handleSubmit server fd).
Proof.
  intros H. unfold handleSubmit, try_block. rewrite H. simpl.
  repeat constructor.
Qed.

Lemma phone_rejected_no_fetch server fd :
  test phoneRegex (phone fd) = false ->
  Forall (fun e => is_fetch e = false) (handleSubmit server fd).
Proof.
  intros H. destruct (test emailRegex (email fd)) eqn:He.
  - unfold handleSubmit, try_block. rewrite He, H. simpl.
    repeat constructor.
  - apply email_rejected_no_fetch; auto.
Qed.

(** C8: the e-mail validator accepts exactly the strings made of one or more
    characters that are neither whitespace nor [@], an [@], one or more such
    characters, a [.], and one or more such characters.  It rejects every
    string without an [@] and every string without a [.] after the [@], it
    accepts [a@b.co], and when it rejects the submitted address no request is
    sent. *)
Theorem C8_email_validator :
  (forall s, test emailRegex s = true <-> email_shape s) /\
  (forall s, ~ In AT s -> test emailRegex s = false) /\
  (forall s, (forall u v, s = u ++ AT :: v -> ~ In DOT v) ->
             test emailRegex s = false) /\
  test emailRegex (lit "a@b.co") = true /\
  (forall server fd,
      test emailRegex (email fd) = false ->
      Forall (fun e => is_fetch e = false) (handleSubmit server fd)).
Proof.
  split; [exact emailRegex_shape|].
  split; [exact email_without_at|].
  split; [exact email_without_dot_after_at|].
  split; [reflexivity|].
  exact email_rejected_no_fetch.
Qed.

(** C9: the phone validator accepts exactly the strings of ten ASCII digits;
    when it rejects the submitted number no request is sent. *)
Theorem C9_phone_validator :
  (forall s, test phoneRegex s = true <-> phone_shape s) /\
  (forall server fd,
      test phoneRegex (phone fd) = false ->
      Forall (fun e => is_fetch e = false) (handleSubmit server fd)).
Proof.
  split; [exact phoneRegex_shape | exact phone_rejected_no_fetch].
Qed.

Lemma C8_email_validator_witness :
  ~ In AT (lit "no-at-sign") /\ test emailRegex (lit "no-at-sign") = false.
Proof.
  assert (H : ~ In AT (lit "no-at-sign")).
  { vm_compute. intuition discriminate. }
  split; [exact H|].
  exact (proj1 (proj2 C8_email_validator) (lit "no-at-sign") H).
Defined.

Lemma C9_phone_validator_witness :
  phone_shape (lit "9662468784") /\ test phoneRegex (lit "9662468784") = true.
Proof.
  assert (H : phone_shape (lit "9662468784")).
  { split; [reflexivity|]. repeat constructor. }
  split; [exact H|].
  exact (proj2 (proj1 C9_phone_validator (lit "9662468784")) H).
Defined.

(** ** Photo selection *)

Lemma photo_limit_value : photo_limit = 1048576%N.
Proof. reflexivity. Qed.

Lemma handlePhotoChange_oversize st f :
  (photo_limit < size f)%N ->
  handlePhotoChange st (Some f) =
    (st, [ToastError (lit "Photo size should be less than 1MB")]).
Proof.
  intros H. unfold handlePhotoChange.
  apply N.ltb_lt in H. rewrite H. reflexivity.
Qed.

Lemma handlePhotoChange_within st f :
  (size f <= photo_limit)%N ->
  handlePhotoChange st (Some f) =
    ({| formData := with_photo (formData st) f;
        photoPreview := photoPreview st;
        selectedPlan := selectedPlan st;
        isLoading := isLoading st |}, [ReadAsDataURL f]).
Proof.
  intros H. unfold handlePhotoChange.
  apply N.ltb_ge in H. rewrite H. reflexivity.
Qed.

(** C7: a photo larger than 1,048,576 bytes is rejected when it is chosen,
    with the size-limit message as the only effect: no request is made, and a
    later submission sends what the draft held before.  A photo of at most
    1,048,576 bytes passes the check and becomes the draft's photo. *)
Theorem C7_photo_size_check st f :
  photo_limit = 1048576%N /\
  ((1048576 < size f)%N ->
     handlePhotoChange st (Some f) =
       (st, [ToastError (lit "Photo size should be less than 1MB")]) /\
     Forall (fun e => is_fetch e = false) (handlePhotoChange st (Some f)).2 /\
     forall server,
       handleSubmit server (formData (handlePhotoChange st (Some f)).1) =
       handleSubmit server (formData st)) /\
  ((size f <= 1048576)%N ->
     photo (formData (handlePhotoChange st (Some f)).1) = Some f /\
     Forall (fun e => is_fetch e = false) (handlePhotoChange st (Some f)).2).
Proof.
  split; [reflexivity|]. split.
  - intros H. rewrite handlePhotoChange_oversize by exact H.
    simpl. repeat split; auto; repeat constructor.
  - intros H. rewrite handlePhotoChange_within by exact H.
    simpl. split; auto; repeat constructor.
Qed.

(** C10: choosing a photo larger than 1,048,576 bytes leaves the component
    state as it was, so the draft, its photo field and the preview keep their
    values, and no file read is started. *)
Theorem C10_oversize_photo_frame st f :
  (1048576 < size f)%N ->
  (handlePhotoChange st (Some f)).1 = st /\
  formData (handlePhotoChange st (Some f)).1 = formData st /\
  photo (formData (handlePhotoChange st (Some f)).1) = photo (formData st) /\
  photoPreview (handlePhotoChange st (Some f)).1 = photoPreview st /\
  Forall (fun e => is_read e = false) (handlePhotoChange st (Some f)).2.
Proof.
  intros H. rewrite handlePhotoChange_oversize by exact H.
  simpl. repeat split; auto; repeat constructor.
Qed.

(** The photo of the draft never exceeds the limit: selecting a file keeps
    this, whatever the file. *)
Lemma handlePhotoChange_keeps_limit st file f :
  (forall g, photo (formData st) = Some g -> (size g <= photo_limit)%N) ->
  photo (formData (handlePhotoChange st file).1) = Some f ->
  (size f <= photo_limit)%N.
Proof.
  intros Hst. unfold handlePhotoChange.
  destruct file as [g|]; [|apply Hst].
  destruct (photo_limit <? size g)%N eqn:E; [apply Hst|].
  simpl. intros [= <-]. apply N.ltb_ge. exact E.
Qed.

(** ** The multipart body *)

Lemma formDataToSend_with_photo fd f :
  photo fd = Some f ->
  formDataToSend fd =
    [("name", Text (name fd)); ("email", Text (email fd));
     ("phone", Text (phone fd)); ("dob", Text (dob fd));
     ("photo", Binary f);
     ("plan", Text (PlanId_string (plan fd)));
     ("startDate", Text (startDate fd)); ("endDate", Text (endDate fd));
     ("paymentMethod", Text (PaymentMethod_string (paymentMethod fd)))]%string.
Proof.
  intros H. unfold formDataToSend, append_key, keys, get. simpl.
  rewrite H. reflexivity.
Qed.

(** C6, at a draft without photo: the body carries a ninth text part, named
    [photo], whose value is the text [null]. *)
Theorem C6_photo_absent_sent_as_text fd :
  photo fd = None ->
  formDataToSend fd =
    [("name", Text (name fd)); ("email", Text (email fd));
     ("phone", Text (phone fd)); ("dob", Text (dob fd));
     ("photo", Text (lit "null"));
     ("plan", Text (PlanId_string (plan fd)));
     ("startDate", Text (startDate fd)); ("endDate", Text (endDate fd));
     ("paymentMethod", Text (PaymentMethod_string (paymentMethod fd)))]%string.
Proof.
  intros H. unfold formDataToSend, append_key, keys, get. simpl.
  rewrite H. reflexivity.
Qed.

Lemma catch_block_no_fetch e :
  Forall (fun x => is_fetch x = false) (catch_block e).
Proof.
  unfold catch_block. destruct e as [n m|]; [|repeat constructor].
  destruct (includes m (lit "email")); [repeat constructor|].
  destruct (includes m (lit "phone")); repeat constructor.
Qed.

(** A submission that passes the validators makes one request, with the body
    built from the draft. *)
Lemma handleSubmit_single_fetch server fd :
  test emailRegex (email fd) = true ->
  test phoneRegex (phone fd) = true ->
  List.filter is_fetch (handleSubmit server fd) =
    [Fetch register_url "POST" (formDataToSend fd)].
Proof.
  intros He Hp.
  assert (Hc : forall e, List.filter is_fetch (catch_block e ++ [SetIsLoading false]) = []).
  { intros e. unfold catch_block. destruct e as [n m|]; simpl; auto.
    destruct (includes m (lit "email")); simpl; auto.
    destruct (includes m (lit "phone")); simpl; auto. }
  unfold handleSubmit, try_block, fetch, not_ok_block, ok. rewrite He, Hp.
  destruct (server (formDataToSend fd)) as [e|[st js]];
    cbn -[catch_block formDataToSend includes].
  - now rewrite Hc.
  - destruct (status_ok st), js as [e|m];
      cbn -[catch_block formDataToSend includes]; rewrite ?Hc; auto.
    destruct (st =? 400)%N; cbn -[catch_block formDataToSend includes];
      rewrite ?Hc; auto.
    destruct (includes m (lit "email"));
      cbn -[catch_block formDataToSend includes]; rewrite ?Hc; auto.
    destruct (includes m (lit "phone"));
      cbn -[catch_block formDataToSend includes]; rewrite ?Hc; auto.
Qed.

(** ** Error mapping of the submission *)

Lemma includes_or_default m d x :
  includes d x = false -> includes [] x = false ->
  includes (or_default m d) x = includes m x.
Proof.
  intros Hd Hn. destruct m; simpl or_default; congruence.
Qed.

Lemma catch_block_toast m :
  toasts (catch_block (Error m) ++ [SetIsLoading false]) =
    [ToastError (if includes m (lit "email") || includes m (lit "phone")
                 then m else generic_failure_message)].
Proof.
  unfold catch_block, Error.
  destruct (includes m (lit "email")); [reflexivity|].
  destruct (includes m (lit "phone")); reflexivity.
Qed.

(** C1, as the code has it: after a non-2xx response with body [{message}]
    the user is shown one error toast.  With status 400, a message that
    contains [email] gives the duplicate-e-mail text, and otherwise a message
    that contains [phone] gives the duplicate-phone text.  In every other
    case the server's message is shown verbatim when it contains [email] or
    [phone], and the fixed registration-failed text is shown when it
    contains neither. *)
Theorem C1_error_mapping server fd st message :
  test emailRegex (email fd) = true ->
  test phoneRegex (phone fd) = true ->
  server (formDataToSend fd) = Resolved {| status := st; json := inr message |} ->
  status_ok st = false ->
  toasts (handleSubmit server fd) = [ToastError (shown_message st message)].
Proof.
  intros He Hp Hs Hok.
  unfold handleSubmit, try_block, fetch, not_ok_block, ok, shown_message.
  rewrite He, Hp, Hs.
  cbn -[catch_block formDataToSend includes toasts]. rewrite Hok.
  cbn -[catch_block formDataToSend includes toasts].
  assert (Hskip : forall body l,
    toasts (SetIsLoading true :: Fetch register_url "POST" body :: l) = toasts l)
    by reflexivity.
  assert (Hdef : forall x, includes [] x = false ->
    includes (lit "Registration failed. Please try again.") x = false ->
    includes (or_default message (lit "Registration failed. Please try again.")) x
    = includes message x).
  { intros x H1 H2. apply includes_or_default; auto. }
  destruct (st =? 400)%N; cbn -[catch_block formDataToSend includes toasts].
  - destruct (includes message (lit "email")) eqn:E;
      cbn -[catch_block formDataToSend includes toasts].
    { rewrite Hskip. rewrite catch_block_toast. reflexivity. }
    destruct (includes message (lit "phone")) eqn:P;
      cbn -[catch_block formDataToSend includes toasts].
    { rewrite Hskip. rewrite catch_block_toast. reflexivity. }
    rewrite Hskip, catch_block_toast.
    rewrite !Hdef by reflexivity. rewrite E, P. simpl.
    destruct message; [reflexivity|]. reflexivity.
  - rewrite Hskip, catch_block_toast.
    rewrite !Hdef by reflexivity.
    destruct (includes message (lit "email")) eqn:E;
      destruct (includes message (lit "phone")) eqn:P; simpl;
      try reflexivity; destruct message; try reflexivity;
      vm_compute in E; vm_compute in P; congruence.
Qed.

Lemma C1_error_mapping_witness :
  toasts (handleSubmit (answering 400 "email already exists") sample_draft) =
    [ToastError duplicate_email_message].
Proof.
  exact (C1_error_mapping (answering 400 "email already exists") sample_draft
           400%N (lit "email already exists")
           eq_refl eq_refl eq_refl eq_refl).
Defined.

(** C1 as the specification words it fails in three ways: a message that
    mentions both is mapped to the duplicate-e-mail text; a message that
    mentions neither is replaced by a fixed text; with a status other than
    400 a message that mentions the e-mail is shown as it is. *)
Lemma C1_counterexample :
  (toasts (handleSubmit (answering 400 "email or phone already registered")
             sample_draft) = [ToastError duplicate_email_message] /\
   specified_message (lit "email or phone already registered") =
     lit "email or phone already registered" /\
   duplicate_email_message <> lit "email or phone already registered") /\
  (toasts (handleSubmit (answering 500 "Internal Server Error") sample_draft) =
     [ToastError generic_failure_message] /\
   specified_message (lit "Internal Server Error") = lit "Internal Server Error" /\
   generic_failure_message <> lit "Internal Server Error") /\
  (toasts (handleSubmit (answering 409 "email already exists") sample_draft) =
     [ToastError (lit "email already exists")] /\
   specified_message (lit "email already exists") = duplicate_email_message /\
   lit "email already exists" <> duplicate_email_message).
Proof.
  repeat split; try (vm_compute; reflexivity); vm_compute; discriminate.
Qed.

Lemma C6_photo_absent_sent_as_text_witness :
  In ("photo"%string, Text (lit "null")) (formDataToSend sample_draft).
Proof.
  rewrite (C6_photo_absent_sent_as_text sample_draft eq_refl).
  do 4 right. left. reflexivity.
Defined.

Lemma C7_photo_size_check_witness :
  handlePhotoChange (initialState 0 0 0) (Some (sample_file 2097152)) =
    (initialState 0 0 0, [ToastError (lit "Photo size should be less than 1MB")]) /\
  photo (formData (handlePhotoChange (initialState 0 0 0)
                     (Some (sample_file 1048576))).1) =
    Some (sample_file 1048576).
Proof.
  split.
  - apply (proj1 (proj2 (C7_photo_size_check (initialState 0 0 0)
                           (sample_file 2097152)))).
    reflexivity.
  - apply (proj2 (proj2 (C7_photo_size_check (initialState 0 0 0)
                           (sample_file 1048576)))).
    simpl. lia.
Defined.

Lemma C10_oversize_photo_frame_witness :
  (handlePhotoChange (initialState 0 0 0) (Some (sample_file 2097152))).1 =
    initialState 0 0 0.
Proof.
  apply (C10_oversize_photo_frame (initialState 0 0 0) (sample_file 2097152)).
  reflexivity.
Defined.

(** ** Membership window *)

Import JsDate.

(** *** The calendar *)

Section Calendar.

Local Open Scope Z_scope.

Lemma year_of_era yoe doy :
  0 <= yoe <= 399 -> 0 <= doy ->
  doy <= 364 + (if is_leap (yoe + 1) then 1 else 0) ->
  let doe := yoe * 365 + yoe / 4 - yoe / 100 + doy in
  (doe - doe / 1460 + doe / 36524 - doe / 146096) / 365 = yoe /\ 0 <= doe <= 146096.
Proof.
  intros Hy Hd Hl doe. subst doe.
  unfold is_leap in Hl.
  destruct ((yoe + 1) mod 4 =? 0) eqn:E4;
  destruct ((yoe + 1) mod 100 =? 0) eqn:E100;
  destruct ((yoe + 1) mod 400 =? 0) eqn:E400; simpl in Hl;
  rewrite ?Z.eqb_eq, ?Z.eqb_neq in *;
  Z.div_mod_to_equations; lia.
Qed.

Lemma is_leap_shift y k : is_leap (y - k * 400) = is_leap y.
Proof.
  unfold is_leap.
  replace ((y - k * 400) mod 4) with (y mod 4)
    by (Z.div_mod_to_equations; lia).
  replace ((y - k * 400) mod 100) with (y mod 100)
    by (Z.div_mod_to_equations; lia).
  replace ((y - k * 400) mod 400) with (y mod 400)
    by (Z.div_mod_to_equations; lia).
  reflexivity.
Qed.

Lemma month_cases m : 1 <= m <= 12 ->
  m = 1 \/ m = 2 \/ m = 3 \/ m = 4 \/ m = 5 \/ m = 6 \/
  m = 7 \/ m = 8 \/ m = 9 \/ m = 10 \/ m = 11 \/ m = 12.
Proof. lia. Qed.

Ltac each_month H :=
  apply month_cases in H;
  repeat (destruct H as [H|H]); subst.

Lemma civil_roundtrip y m d :
  1 <= m <= 12 -> 1 <= d <= days_in_month y m ->
  civil_from_days (days_from_civil y m d) = (y, m, d).
Proof.
  intros Hm Hd. unfold days_from_civil, civil_from_days.
  set (y' := if m <=? 2 then y - 1 else y).
  set (era := y' / 400). set (yoe := y' - era * 400).
  set (mp := if 2 <? m then m - 3 else m + 9).
  set (doy := (153 * mp + 2) / 5 + d - 1).
  assert (Hyoe : 0 <= yoe <= 399).
  { subst yoe era. clearbody y'. clear. Z.div_mod_to_equations. lia. }
  assert (Hleap : is_leap (yoe + 1) = is_leap (y' + 1)).
  { subst yoe. rewrite <- (is_leap_shift (y' + 1) era). f_equal. lia. }
  assert (Hmonth : 0 <= doy <= 364 + (if is_leap (yoe + 1) then 1 else 0) /\
                   (5 * doy + 2) / 153 = mp /\
                   doy - (153 * mp + 2) / 5 + 1 = d /\
                   0 <= mp <= 11).
  { rewrite Hleap. subst doy mp y'. clear Hleap Hyoe yoe era.
    unfold days_in_month in Hd.
    each_month Hm; simpl in *;
      try (destruct (is_leap y) eqn:El;
           replace (y - 1 + 1) with y by lia; rewrite ?El);
      try (destruct (is_leap (y + 1)));
      repeat split; try (Z.div_mod_to_equations; lia). }
  destruct Hmonth as (Hdoy & Hmp & Hdd & Hmpr).
  destruct (year_of_era yoe doy Hyoe (proj1 Hdoy) (proj2 Hdoy)) as [Hy Hdoe].
  set (doe := yoe * 365 + yoe / 4 - yoe / 100 + doy) in *.
  replace (era * 146097 + doe - 719468 + 719468) with (doe + era * 146097) by lia.
  rewrite Z.div_add by lia. rewrite (Z.div_small doe) by lia.
  replace (doe + era * 146097 - (0 + era) * 146097) with doe by lia.
  rewrite Hy.
  replace (doe - (365 * yoe + yoe / 4 - yoe / 100)) with doy by (subst doe; lia).
  rewrite Hmp, Hdd.
  clear Hdd Hmp Hy Hdoe Hdoy Hleap Hyoe Hmpr. clear doe doy.
  subst mp yoe era y'.
  each_month Hm; simpl; f_equal; f_equal; lia.
Qed.

Lemma days_in_month_bounds y m : 28 <= days_in_month y m <= 31.
Proof.
  unfold days_in_month.
  destruct (m =? 2); [destruct (is_leap y); lia|].
  destruct ((m =? 4) || (m =? 6) || (m =? 9) || (m =? 11)); lia.
Qed.

Lemma days_from_civil_day y m d :
  days_from_civil y m d = days_from_civil y m 1 + (d - 1).
Proof. unfold days_from_civil. lia. Qed.

(** The day before the first of the next month is the last of this month. *)
Lemma last_day_of_month y m :
  1 <= m <= 12 ->
  days_from_civil (y + m / 12) (m mod 12 + 1) 1 - 1 =
  days_from_civil y m (days_in_month y m).
Proof.
  intros Hm. unfold days_from_civil, days_in_month, is_leap.
  each_month Hm; simpl;
    replace (y + 0) with y by lia;
    try (destruct (y mod 4 =? 0) eqn:E4;
         destruct (y mod 100 =? 0) eqn:E100;
         destruct (y mod 400 =? 0) eqn:E400; simpl;
         rewrite ?Z.eqb_eq, ?Z.eqb_neq in * );
    Z.div_mod_to_equations; lia.
Qed.

Lemma Day_MakeDate day T :
  0 <= T < msPerDay ->
  Day (MakeDate day T) = day /\ TimeWithinDay (MakeDate day T) = T.
Proof.
  unfold Day, TimeWithinDay, MakeDate, msPerDay. intros H.
  Z.div_mod_to_equations; lia.
Qed.

(** The fields of a time value built from a valid date, read in UTC. *)
Lemma fields_of_date y m d T :
  valid_date y m d -> 0 <= T < msPerDay ->
  let t := MakeDate (days_from_civil y m d) T in
  YearFromTime t = y /\ MonthFromTime t = m - 1 /\ DateFromTime t = d /\
  TimeWithinDay t = T.
Proof.
  intros [Hm Hd] HT t. subst t.
  unfold YearFromTime, MonthFromTime, DateFromTime.
  destruct (Day_MakeDate (days_from_civil y m d) T HT) as [-> ->].
  rewrite civil_roundtrip by assumption. simpl. repeat split; lia.
Qed.

Lemma MakeDay_in_range y m d :
  1 <= m <= 12 -> MakeDay y (m - 1) d = days_from_civil y m d.
Proof.
  intros Hm. unfold MakeDay.
  replace ((m - 1) / 12) with 0 by (Z.div_mod_to_equations; lia).
  replace ((m - 1) mod 12) with (m - 1) by (Z.div_mod_to_equations; lia).
  rewrite (days_from_civil_day y m d).
  replace (y + 0) with y by lia. replace (m - 1 + 1) with m by lia. lia.
Qed.

(** [MakeDay] with day 0 of the month after the target month. *)
Lemma MakeDay_end_of_month y k :
  MakeDay y (k + 1) 0 =
  days_from_civil (y + k / 12) (k mod 12 + 1)
    (days_in_month (y + k / 12) (k mod 12 + 1)).
Proof.
  unfold MakeDay.
  rewrite <- last_day_of_month by (Z.div_mod_to_equations; lia).
  assert (H : y + (k + 1) / 12 = y + k / 12 + (k mod 12 + 1) / 12 /\
              (k + 1) mod 12 + 1 = (k mod 12 + 1) mod 12 + 1)
    by (Z.div_mod_to_equations; lia).
  destruct H as [-> ->]. lia.
Qed.

Lemma digit_not_T n : digit n <> 84%N.
Proof.
  unfold digit. intros H.
  assert (0 <= n mod 10 < 10) by (apply Z.mod_pos_bound; lia). lia.
Qed.

Lemma split_T_0_app a rest :
  Forall (fun c => c <> 84%N) a -> split_T_0 (a ++ 84%N :: rest) = a.
Proof.
  induction 1 as [|c a Hc Ha IH]; simpl.
  - reflexivity.
  - destruct (N.eqb_spec c 84); [contradiction|]. now rewrite IH.
Qed.

Lemma isoYear_no_T y : Forall (fun c => c <> 84%N) (isoYear y).
Proof.
  unfold isoYear, pad6, pad4, pad3, pad2.
  destruct ((0 <=? y) && (y <=? 9999)); [|destruct (y <? 0)];
    repeat constructor; try apply digit_not_T; vm_compute; discriminate.
Qed.

Lemma pad2_no_T n : Forall (fun c => c <> 84%N) (pad2 n).
Proof. unfold pad2. repeat constructor; apply digit_not_T. Qed.

Lemma dash_no_T : Forall (fun c => c <> 84%N) (lit "-").
Proof. repeat constructor. vm_compute. discriminate. Qed.

Lemma isoDate_civil t : isoDate t = civil_string (civil_from_days (Day t)).
Proof.
  unfold isoDate, toISOString, civil_string.
  destruct (civil_from_days (Day t)) as [[y m] d].
  set (rest := pad2 (TimeWithinDay t / 3600000) ++ _).
  replace (isoYear y ++ lit "-" ++ pad2 m ++ lit "-" ++ pad2 d ++ lit "T" ++ rest)
    with ((isoYear y ++ lit "-" ++ pad2 m ++ lit "-" ++ pad2 d) ++ 84%N :: rest)
    by (rewrite <- !app_assoc; reflexivity).
  apply split_T_0_app.
  repeat (apply Forall_app; split);
    auto using isoYear_no_T, pad2_no_T, dash_no_T.
Qed.

(** In a browser whose zone is UTC, for every valid reference date, time of
    day and plan, the window starts on the reference date and ends one
    calendar-correct month addition later. *)
Theorem handlePlanSelect_utc st p y m d T :
  valid_date y m d -> 0 <= T < msPerDay ->
  let st' := handlePlanSelect 0 (MakeDate (days_from_civil y m d) T) st p in
  startDate (formData st') = civil_string (y, m, d) /\
  endDate (formData st') = civil_string (civil_add_months (y, m, d) (months p)).
Proof.
  intros Hv HT. unfold handlePlanSelect, with_plan.
  cbn [formData startDate endDate].
  set (now := MakeDate (days_from_civil y m d) T).
  destruct (fields_of_date y m d T Hv HT) as (Hy & Hmo & Hd & Htw).
  fold now in Hy, Hmo, Hd, Htw.
  rewrite !isoDate_civil. split.
  - unfold now. destruct (Day_MakeDate (days_from_civil y m d) T HT) as [-> _].
    destruct Hv. now rewrite civil_roundtrip.
  - f_equal. unfold addMonths, civil_add_months.
    destruct Hv as [Hm Hdr].
    destruct (months p =? 0) eqn:En.
    + apply Z.eqb_eq in En. rewrite En.
      unfold now. destruct (Day_MakeDate (days_from_civil y m d) T HT) as [-> _].
      rewrite civil_roundtrip by assumption.
      replace ((m - 1 + 0) / 12) with 0 by (Z.div_mod_to_equations; lia).
      replace ((m - 1 + 0) mod 12 + 1) with m by (Z.div_mod_to_equations; lia).
      replace (y + 0) with y by lia. f_equal. lia.
    + set (k := m - 1 + months p).
      set (y' := y + k / 12). set (m' := k mod 12 + 1).
      assert (Hm' : 1 <= m' <= 12) by (subst m'; Z.div_mod_to_equations; lia).
      pose proof (days_in_month_bounds y' m') as Hb.
      unfold getDate, getMonth, getFullYear, setMonth, setFullYear,
        LocalTime, UTC.
      rewrite !Z.add_0_r, !Z.sub_0_r. rewrite Hy, Hmo, Hd, Htw.
      replace (m - 1 + months p + 1) with (k + 1) by (subst k; lia).
      rewrite MakeDay_end_of_month. fold y' m'.
      assert (Hend : valid_date y' m' (days_in_month y' m'))
        by (split; [assumption | lia]).
      destruct (fields_of_date y' m' _ T Hend HT) as (Ey & Em & Ed & _).
      rewrite Ed.
      destruct (days_in_month y' m' <=? d) eqn:Ec.
      * apply Z.leb_le in Ec.
        destruct (Day_MakeDate (days_from_civil y' m' (days_in_month y' m')) T HT)
          as [-> _].
        destruct Hend. rewrite civil_roundtrip by assumption.
        f_equal. lia.
      * apply Z.leb_gt in Ec. rewrite Ey, Em.
        rewrite MakeDay_in_range by assumption.
        destruct (Day_MakeDate (days_from_civil y' m' d) T HT) as [-> _].
        rewrite civil_roundtrip by (try assumption; lia).
        f_equal. lia.
Qed.

End Calendar.

Lemma one_month_in_plans : In one_month plans.
Proof. left. reflexivity. Qed.

(** In a browser whose zone is UTC the window of the specification's example
    comes out right. *)
Lemma handlePlanSelect_utc_example st :
  let st' := handlePlanSelect 0 (utc 2024 1 31 12 0) st one_month in
  startDate (formData st') = lit "2024-01-31" /\
  endDate (formData st') = lit "2024-02-29".
Proof. split; vm_compute; reflexivity. Qed.

(** C2, at two moments in browsers whose zone is not UTC.  In India at 00:30
    on 2024-01-31 (19:00 UTC of the day before) the window starts on
    2024-01-30 and ends on 2024-02-28, where one calendar month after either
    day is 2024-02-29.  In New York at 19:00 on 2024-01-30 (midnight UTC of
    2024-01-31) the window starts on 2024-01-31 and ends on 2024-03-01. *)
Theorem C2_window_zone_drift st :
  (let st' := handlePlanSelect zone_india (utc 2024 1 30 19 0) st one_month in
   startDate (formData st') = lit "2024-01-30" /\
   endDate (formData st') = lit "2024-02-28") /\
  civil_string (civil_add_months (2024, 1, 30)%Z 1) = lit "2024-02-29" /\
  civil_string (civil_add_months (2024, 1, 31)%Z 1) = lit "2024-02-29" /\
  (let st' := handlePlanSelect zone_new_york (utc 2024 1 31 0 0) st one_month in
   startDate (formData st') = lit "2024-01-31" /\
   endDate (formData st') = lit "2024-03-01").
Proof. repeat split; vm_compute; reflexivity. Qed.

(** ** Admin session *)

Import Session.

Lemma useEffect_with_token storage c t :
  storage !! "token"%string = Some (c :: t) ->
  step (init storage) Mount =
    Some ({| isAdminLoggedIn := false; localStorage := storage; mounted := true;
             verifyInFlight := true; loginsInFlight := 0 |},
          [Session.Fetch (verify_request (c :: t))]).
Proof.
  intros H. unfold step, useEffect. simpl. rewrite H. reflexivity.
Qed.

(** A failed verification, by status or by rejection, ends anonymous with the
    token removed and sends nothing more. *)
Lemma verify_failure_clears a o :
  verifyInFlight a = true ->
  call_result (VerifySettled o) = Some false ->
  exists a' out,
    step a (VerifySettled o) = Some (a', out) /\
    session_state a' = anonymous /\
    localStorage a' !! "token"%string = None /\
    Forall (fun e => Session.is_fetch e = false) out.
Proof.
  intros Hv Hr. unfold step. rewrite Hv.
  destruct o as [st|]; simpl in *.
  - injection Hr as Hr. rewrite Hr.
    eexists _, _. split; [reflexivity|]. simpl.
    repeat split; [apply lookup_delete_eq | repeat constructor].
  - eexists _, _. split; [reflexivity|]. simpl.
    repeat split; [apply lookup_delete_eq | repeat constructor].
Qed.

Lemma silent_step_keeps a e a' out :
  mounted a = true -> silent e = true -> step a e = Some (a', out) ->
  localStorage a' = localStorage a /\
  isAdminLoggedIn a' = isAdminLoggedIn a /\
  verifyInFlight a' = verifyInFlight a /\
  mounted a' = true.
Proof.
  intros Hm. destruct e; simpl; try discriminate; intros _.
  - rewrite Hm. discriminate.
  - destruct (mounted a && negb (isAdminLoggedIn a)); [|discriminate].
    intros [= <- <-]; auto.
Qed.

(** While no request settles and nobody logs out, the stored token stays and
    the session stays as it is, however long the run. *)
Lemma silent_run_keeps es : forall a a' out,
  mounted a = true -> forallb silent es = true -> run a es = Some (a', out) ->
  localStorage a' = localStorage a /\ session_state a' = session_state a.
Proof.
  induction es as [|e es IH]; simpl; intros a a' out Hm Hs Hr.
  - injection Hr as <- <-. auto.
  - apply andb_true_iff in Hs as [He Hes].
    destruct (step a e) as [[a1 o1]|] eqn:Hstep; [|discriminate].
    destruct (run a1 es) as [[a2 o2]|] eqn:Hrun; [|discriminate].
    injection Hr as <- <-.
    destruct (silent_step_keeps _ _ _ _ Hm He Hstep) as (H1 & H2 & H3 & H4).
    destruct (IH _ _ _ H4 Hes Hrun) as [H5 H6].
    split; [congruence|]. rewrite H6. unfold session_state.
    rewrite H2, H3. reflexivity.
Qed.

(** C3, with a token in storage: the mount effect sends the verification
    request without an abort signal and starts no timer, and the session
    waits with the token still stored; as long as the request does not
    settle, the token stays and the session keeps waiting.  The login request
    of [AdminLogin], by contrast, carries a signal and starts a 10000 ms
    timer. *)
Theorem C3_bootstrap_without_timeout storage c t :
  storage !! "token"%string = Some (c :: t) ->
  (exists a,
      step (init storage) Mount =
        Some (a, [Session.Fetch (verify_request (c :: t))]) /\
      signal (verify_request (c :: t)) = false /\
      session_state a = verifying /\
      localStorage a !! "token"%string = Some (c :: t) /\
      forall es a' out,
        forallb silent es = true -> run a es = Some (a', out) ->
        localStorage a' !! "token"%string = Some (c :: t) /\
        session_state a' = verifying) /\
  (forall cr, In (SetTimeout 10000) (login_submit cr) /\
              signal (login_request cr) = true).
Proof.
  intros H. split.
  - eexists. split; [apply useEffect_with_token; exact H|].
    repeat split; auto.
    + eapply silent_run_keeps in H1 as [-> _]; [exact H | reflexivity | exact H0].
    + eapply silent_run_keeps in H1 as [_ ->]; [reflexivity | reflexivity | exact H0].
  - intros cr. split; [simpl; auto | reflexivity].
Qed.

Lemma C3_bootstrap_without_timeout_witness :
  exists a,
    step (init (stored "abc")) Mount =
      Some (a, [Session.Fetch (verify_request (lit "abc"))]) /\
    session_state a = verifying /\
    localStorage a !! "token"%string = Some (lit "abc").
Proof.
  destruct (proj1 (C3_bootstrap_without_timeout (stored "abc") 97%N (lit "bc")
                     eq_refl)) as (a & H1 & _ & H2 & H3 & _).
  exists a. auto.
Defined.

(** C4: for every 2xx login response, carrying the token the login endpoint
    answers with (a non-empty string), the handler writes that token to
    storage and sets the session authenticated in the same step, so that the
    admin route renders the panel right after it; the step sends no
    request. *)
Theorem C4_login_persists_and_authenticates a st d c t :
  loginsInFlight a <> 0 -> status_ok st = true -> token d = Some (c :: t) ->
  exists a' out,
    step a (LoginSettled (LResolved st (inr d))) = Some (a', out) /\
    localStorage a' !! "token"%string = Some (c :: t) /\
    session_state a' = authenticated /\
    adminRoute a' = AdminPanel /\
    Forall (fun e => Session.is_fetch e = false) out.
Proof.
  intros Hn Hok Ht. unfold step.
  destruct (loginsInFlight a) as [|n]; [congruence|].
  unfold login_settled. rewrite Hok, Ht. simpl.
  eexists _, _. split; [reflexivity|]. simpl.
  split; [apply lookup_insert_eq|].
  repeat split; repeat constructor.
Qed.

Lemma C4_login_persists_and_authenticates_witness :
  exists a' out,
    step {| isAdminLoggedIn := false; localStorage := ∅; mounted := true;
            verifyInFlight := false; loginsInFlight := 1 |}
      (LoginSettled
         (LResolved 200 (inr {| token := Some (lit "abc"); message := None |})))
      = Some (a', out) /\
    localStorage a' !! "token"%string = Some (lit "abc") /\
    session_state a' = authenticated /\
    adminRoute a' = AdminPanel /\
    Forall (fun e => Session.is_fetch e = false) out.
Proof.
  apply (C4_login_persists_and_authenticates
           {| isAdminLoggedIn := false; localStorage := ∅; mounted := true;
              verifyInFlight := false; loginsInFlight := 1 |}
           200%N {| token := Some (lit "abc"); message := None |}
           97%N (lit "bc")); [discriminate | reflexivity | reflexivity].
Defined.










(** * Further properties *)

(** ** One submission of the registration form *)

Lemma toasts_app es1 es2 : toasts (es1 ++ es2) = toasts es1 ++ toasts es2.
Proof. unfold toasts. apply List.filter_app. Qed.

Lemma catch_block_shape e :
  exists m, catch_block e = [Registration.ConsoleError; Registration.ToastError m].
Proof.
  unfold catch_block. destruct e as [n m|]; [|eauto].
  destruct (includes m (lit "email")); [eauto|].
  destruct (includes m (lit "phone")); eauto.
Qed.

(** [handleSubmit] is its first half followed, when a request was sent, by
    its second half on what the server answered. *)
Lemma handleSubmit_split server fd :
  handleSubmit server fd =
    match Form.submit_start fd with
    | (es, Some body) => es ++ Form.submit_settled (server body)
    | (es, None) => es
    end.
Proof.
  unfold handleSubmit, try_block, Form.submit_start, Form.submit_settled,
    Form.after_fetch, fetch.
  destruct (test emailRegex (email fd)); [|reflexivity].
  destruct (test phoneRegex (phone fd)); [|reflexivity].
  cbn -[catch_block formDataToSend includes not_ok_block].
  destruct (server (formDataToSend fd)) as [e|r];
    cbn -[catch_block formDataToSend includes not_ok_block]; [reflexivity|].
  destruct (ok r); cbn -[catch_block formDataToSend includes not_ok_block].
  - destruct (json r) as [e'|m];
      cbn -[catch_block formDataToSend includes]; reflexivity.
  - destruct (not_ok_block r) as [es [e'|[]]];
      cbn -[catch_block formDataToSend includes]; try reflexivity.
    destruct (json r) as [e'|m];
      cbn -[catch_block formDataToSend includes]; reflexivity.
Qed.

Lemma not_ok_block_throws r : exists e, not_ok_block r = ([], inl e).
Proof.
  unfold not_ok_block. destruct (json r) as [e|m]; [eauto|].
  cbn -[includes]. destruct (status r =? 400)%N; cbn -[includes]; [|eauto].
  destruct (includes m (lit "email")); cbn -[includes]; [eauto|].
  destruct (includes m (lit "phone")); cbn -[includes]; eauto.
Qed.

(** The second half of [handleSubmit] has two shapes. *)
Lemma submit_settled_shape o :
  if Form.succeeded o then
    Form.submit_settled o =
      [Registration.ToastSuccess
         (lit "Registration successful! Please check your email.");
       Registration.Navigate "/thank-you"; Registration.SetIsLoading false]
  else
    exists m, Form.submit_settled o =
      [Registration.ConsoleError; Registration.ToastError m;
       Registration.SetIsLoading false].
Proof.
  unfold Form.succeeded, Form.submit_settled, Form.after_fetch.
  destruct o as [e|r]; cbn -[catch_block not_ok_block].
  - destruct (catch_block_shape e) as [m ->]. eauto.
  - destruct (ok r); cbn -[catch_block not_ok_block].
    + destruct (json r) as [e|m]; cbn -[catch_block]; [|reflexivity].
      destruct (catch_block_shape e) as [m ->]. eauto.
    + destruct (not_ok_block_throws r) as [e ->]. cbn -[catch_block].
      destruct (catch_block_shape e) as [m ->]. eauto.
Qed.

Lemma submit_start_shape fd :
  if test emailRegex (email fd) && test phoneRegex (phone fd) then
    Form.submit_start fd =
      ([Registration.SetIsLoading true;
        Registration.Fetch register_url "POST" (formDataToSend fd)],
       Some (formDataToSend fd))
  else
    exists m, Form.submit_start fd =
      ([Registration.SetIsLoading true; Registration.ConsoleError;
        Registration.ToastError m; Registration.SetIsLoading false], None).
Proof.
  unfold Form.submit_start.
  destruct (test emailRegex (email fd)); simpl; [|eauto].
  destruct (test phoneRegex (phone fd)); simpl; eauto.
Qed.

(** X1: one submission makes one request when both validators accept and
    none when one rejects, whatever the server answers: nothing is sent
    twice. *)
Theorem X1_submit_requests server fd :
  List.filter Registration.is_fetch (handleSubmit server fd) =
    if test emailRegex (email fd) && test phoneRegex (phone fd)
    then [Registration.Fetch register_url "POST" (formDataToSend fd)]
    else [].
Proof.
  rewrite handleSubmit_split.
  pose proof (submit_start_shape fd) as Hs.
  destruct (test emailRegex (email fd) && test phoneRegex (phone fd)).
  - rewrite Hs.
    pose proof (submit_settled_shape (server (formDataToSend fd))) as Ht.
    destruct (Form.succeeded (server (formDataToSend fd))).
    + rewrite Ht. reflexivity.
    + destruct Ht as [m ->]. reflexivity.
  - destruct Hs as [m ->]. reflexivity.
Qed.

(** X2: every submission, however it goes, switches the loading flag on
    first and off last and shows exactly one toast. *)
Theorem X2_submit_one_toast server fd :
  (exists t, toasts (handleSubmit server fd) = [t]) /\
  head (handleSubmit server fd) = Some (Registration.SetIsLoading true) /\
  last (handleSubmit server fd) = Some (Registration.SetIsLoading false).
Proof.
  rewrite handleSubmit_split.
  pose proof (submit_start_shape fd) as Hs.
  destruct (test emailRegex (email fd) && test phoneRegex (phone fd)).
  - rewrite Hs.
    pose proof (submit_settled_shape (server (formDataToSend fd))) as Ht.
    destruct (Form.succeeded (server (formDataToSend fd))).
    + rewrite Ht. repeat split. eexists. reflexivity.
    + destruct Ht as [m ->]. repeat split. eexists. reflexivity.
  - destruct Hs as [m ->]. repeat split. eexists. reflexivity.
Qed.

(** X3: the form navigates to the thank-you page exactly when both
    validators accept and the request is answered with a 2xx status and a
    body that parses; the toast is then the success toast, and in every other
    case it is an error toast. *)
Theorem X3_navigate_iff_success server fd :
  let success := test emailRegex (email fd) && test phoneRegex (phone fd) &&
                 Form.succeeded (server (formDataToSend fd)) in
  (In (Registration.Navigate "/thank-you") (handleSubmit server fd) <->
   success = true) /\
  (success = true ->
   toasts (handleSubmit server fd) =
     [Registration.ToastSuccess
        (lit "Registration successful! Please check your email.")]) /\
  (success = false ->
   exists m, toasts (handleSubmit server fd) = [Registration.ToastError m]).
Proof.
  cbv zeta. rewrite handleSubmit_split.
  pose proof (submit_start_shape fd) as Hs.
  destruct (test emailRegex (email fd) && test phoneRegex (phone fd));
    cbn [andb].
  - rewrite Hs.
    pose proof (submit_settled_shape (server (formDataToSend fd))) as Ht.
    destruct (Form.succeeded (server (formDataToSend fd))).
    + rewrite Ht. split; [|split]; try discriminate; auto.
      split; auto. intros _. simpl. auto.
    + destruct Ht as [m ->]. split; [|split]; try discriminate.
      * split; [|discriminate]. simpl.
        intros [H|[H|[H|[H|[H|[]]]]]]; discriminate.
      * intros _. exists m. reflexivity.
  - destruct Hs as [m ->]. split; [|split]; try discriminate.
    + split; [|discriminate]. simpl.
      intros [H|[H|[H|[H|[]]]]]; discriminate.
    + intros _. exists m. reflexivity.
Qed.

Lemma X3_navigate_iff_success_witness :
  toasts (handleSubmit (fun _ => Resolved {| status := 201; json := inr [] |})
            sample_draft) =
    [Registration.ToastSuccess
       (lit "Registration successful! Please check your email.")].
Proof.
  apply (proj1 (proj2 (X3_navigate_iff_success
           (fun _ => Resolved {| status := 201; json := inr [] |}) sample_draft))).
  reflexivity.
Defined.

(** X4: the validators run in order and their messages reach the user as
    they are: an address the pattern rejects gives the e-mail message
    whatever the phone is, and an accepted address with a rejected phone
    gives the phone message; nothing else happens. *)
Theorem X4_validation_messages server fd :
  (test emailRegex (email fd) = false ->
   handleSubmit server fd =
     [Registration.SetIsLoading true; Registration.ConsoleError;
      Registration.ToastError (lit "Please enter a valid email address");
      Registration.SetIsLoading false]) /\
  (test emailRegex (email fd) = true -> test phoneRegex (phone fd) = false ->
   handleSubmit server fd =
     [Registration.SetIsLoading true; Registration.ConsoleError;
      Registration.ToastError (lit "Please enter a valid 10-digit phone number");
      Registration.SetIsLoading false]).
Proof.
  split.
  - intros He. unfold handleSubmit, try_block. rewrite He. reflexivity.
  - intros He Hp. unfold handleSubmit, try_block. rewrite He, Hp. reflexivity.
Qed.

Lemma X4_validation_messages_witness :
  handleSubmit (answering 200 "ok") (Form.with_phone sample_draft (lit "12345")) =
    [Registration.SetIsLoading true; Registration.ConsoleError;
     Registration.ToastError (lit "Please enter a valid 10-digit phone number");
     Registration.SetIsLoading false].
Proof.
  apply (proj2 (X4_validation_messages (answering 200 "ok")
                  (Form.with_phone sample_draft (lit "12345"))));
    reflexivity.
Defined.

(** ** Runs of the registration form *)

Lemma formDataToSend_within_limit fd :
  (forall g, photo fd = Some g -> (size g <= photo_limit)%N) ->
  Forall Form.part_within_limit (formDataToSend fd).
Proof.
  intros H. unfold formDataToSend, append_key, keys, get. simpl.
  destruct (photo fd) as [g|] eqn:E; repeat constructor.
  apply H. reflexivity.
Qed.

Lemma submit_settled_no_request o :
  Forall Form.request_within_limit (Form.submit_settled o).
Proof.
  pose proof (submit_settled_shape o) as H.
  destruct (Form.succeeded o); [rewrite H | destruct H as [m ->]];
    repeat constructor.
Qed.

Lemma form_step_inv tza f e f' out :
  Form.form_inv f -> Form.step tza f e = Some (f', out) ->
  Form.form_inv f' /\ Forall Form.request_within_limit out.
Proof.
  intros (Hp & Hs & Hl) Hstep. unfold Form.form_inv.
  destruct e; simpl in Hstep;
    try (injection Hstep as <- <-; simpl; auto).
  - (* PhotoChange *)
    destruct (handlePhotoChange (Form.state f) file) as [st o] eqn:E.
    injection Hstep as <- <-. simpl.
    assert (Hst : st = (handlePhotoChange (Form.state f) file).1) by now rewrite E.
    assert (Ho : o = (handlePhotoChange (Form.state f) file).2) by now rewrite E.
    split; [split; [|split]|].
    + intros g Hg. rewrite Hst in Hg.
      eapply handlePhotoChange_keeps_limit; eauto.
    + rewrite Hst. unfold handlePhotoChange.
      destruct file as [g|]; auto.
      destruct (photo_limit <? size g)%N; auto.
    + rewrite Hst. unfold handlePhotoChange.
      destruct file as [g|]; auto.
      destruct (photo_limit <? size g)%N; auto.
    + rewrite Ho. unfold handlePhotoChange.
      destruct file as [g|]; [|constructor].
      destruct (photo_limit <? size g)%N; repeat constructor.
  - (* PhotoLoaded *)
    destruct (Form.reading f); [discriminate|].
    injection Hstep as <- <-. simpl. auto.
  - (* PlanClick *)
    destruct (nth_error plans i) as [p|]; [|discriminate].
    injection Hstep as <- <-. simpl. auto.
  - (* Submit *)
    destruct (isLoading (Form.state f)) eqn:El; [discriminate|].
    pose proof (submit_start_shape (formData (Form.state f))) as Hsh.
    destruct (Form.submit_start (formData (Form.state f))) as [o sent].
    injection Hstep as <- <-. simpl.
    destruct (test emailRegex (email (formData (Form.state f))) &&
              test phoneRegex (phone (formData (Form.state f)))).
    + injection Hsh as -> ->. repeat split; auto.
      constructor; [exact I|]. constructor; [|constructor].
      apply formDataToSend_within_limit, Hp.
    + destruct Hsh as [m [= -> ->]]. repeat split; auto.
      repeat constructor.
  - (* Settled *)
    destruct (Form.awaiting f); [|discriminate].
    injection Hstep as <- <-. simpl. repeat split; auto.
    apply submit_settled_no_request.
Qed.

Lemma form_run_inv tza es : forall f f' out,
  Form.form_inv f -> Form.run tza f es = Some (f', out) ->
  Form.form_inv f' /\ Forall Form.request_within_limit out.
Proof.
  induction es as [|e es IH]; simpl; intros f f' out Hi Hr.
  - injection Hr as <- <-. auto.
  - destruct (Form.step tza f e) as [[f1 o1]|] eqn:Hstep; [|discriminate].
    destruct (Form.run tza f1 es) as [[f2 o2]|] eqn:Hrun; [|discriminate].
    injection Hr as <- <-.
    destruct (form_step_inv _ _ _ _ _ Hi Hstep) as [Hi1 Ho1].
    destruct (IH _ _ _ Hi1 Hrun) as [Hi2 Ho2].
    split; auto. apply Forall_app; auto.
Qed.

Lemma form_start_inv tza now1 now2 : Form.form_inv (Form.start tza now1 now2).
Proof. repeat split; simpl; auto. discriminate. Qed.

Ltac run_witness thm :=
  match goal with
  | |- match ?r with Some _ => _ | None => _ end =>
      let E := fresh "E" in
      destruct r as [[? ?]|] eqn:E;
      [ apply (thm _ _ _ _ _ _ E) | vm_compute in E; discriminate E ]
  end.

(** X5: in every run of the form, whatever files are chosen and in whatever
    order, the photo of the draft is at most 1,048,576 bytes and so is every
    binary part of every request that is sent. *)
Theorem X5_requests_respect_photo_limit tza now1 now2 es f out :
  Form.run tza (Form.start tza now1 now2) es = Some (f, out) ->
  Forall Form.request_within_limit out /\
  (forall g, photo (formData (Form.state f)) = Some g ->
             (size g <= 1048576)%N).
Proof.
  intros Hr.
  destruct (form_run_inv _ _ _ _ _ (form_start_inv tza now1 now2) Hr)
    as [(Hp & _ & _) Ho].
  split; auto.
Qed.

Lemma X5_requests_respect_photo_limit_witness :
  match Form.run 0 (Form.start 0 0 0) Form.sample_run with
  | Some (f, out) =>
      Forall Form.request_within_limit out /\
      (forall g, photo (formData (Form.state f)) = Some g ->
                 (size g <= 1048576)%N)
  | None => False
  end.
Proof. run_witness X5_requests_respect_photo_limit. Defined.

Lemma form_step_outstanding tza f e f' out :
  Form.form_inv f -> Form.step tza f e = Some (f', out) ->
  (length (List.filter Registration.is_fetch out) +
   match Form.awaiting f with Some _ => 1 | None => 0 end =
   (if Form.is_settled e then 1 else 0) +
   match Form.awaiting f' with Some _ => 1 | None => 0 end)%nat.
Proof.
  intros (_ & _ & Hl).
  destruct e; simpl; try (intros [= <- <-]; simpl; lia).
  - destruct (handlePhotoChange (Form.state f) file) as [st o] eqn:E.
    intros [= <- <-]. simpl.
    unfold handlePhotoChange in E. destruct file as [g|].
    + destruct (photo_limit <? size g)%N; injection E as <- <-; simpl; lia.
    + injection E as <- <-. simpl. lia.
  - destruct (Form.reading f); [discriminate|]. intros [= <- <-]. simpl. lia.
  - destruct (nth_error plans i); [|discriminate]. intros [= <- <-]. simpl. lia.
  - destruct (isLoading (Form.state f)) eqn:El; [discriminate|].
    destruct (Form.awaiting f); [discriminate|].
    pose proof (submit_start_shape (formData (Form.state f))) as Hsh.
    destruct (Form.submit_start (formData (Form.state f))) as [o sent].
    intros [= <- <-]. simpl.
    destruct (test emailRegex (email (formData (Form.state f))) &&
              test phoneRegex (phone (formData (Form.state f)))).
    + injection Hsh as -> ->. reflexivity.
    + destruct Hsh as [m [= -> ->]]. reflexivity.
  - destruct (Form.awaiting f); [|discriminate]. intros [= <- <-]. simpl.
    pose proof (submit_settled_shape o) as H.
    destruct (Form.succeeded o); [rewrite H | destruct H as [m ->]];
      reflexivity.
Qed.

Lemma form_run_outstanding tza es : forall f f' out,
  Form.form_inv f -> Form.run tza f es = Some (f', out) ->
  (length (List.filter Registration.is_fetch out) +
   match Form.awaiting f with Some _ => 1 | None => 0 end =
   length (List.filter Form.is_settled es) +
   match Form.awaiting f' with Some _ => 1 | None => 0 end)%nat.
Proof.
  induction es as [|e es IH]; simpl; intros f f' out Hi Hr.
  - injection Hr as <- <-. reflexivity.
  - destruct (Form.step tza f e) as [[f1 o1]|] eqn:Hstep; [|discriminate].
    destruct (Form.run tza f1 es) as [[f2 o2]|] eqn:Hrun; [|discriminate].
    injection Hr as <- <-.
    pose proof (form_step_outstanding _ _ _ _ _ Hi Hstep) as H1.
    destruct (form_step_inv _ _ _ _ _ Hi Hstep) as [Hi1 _].
    pose proof (IH _ _ _ Hi1 Hrun) as H2.
    rewrite List.filter_app, length_app.
    destruct (Form.is_settled e); simpl; lia.
Qed.

(** X6: the form never has two registration requests outstanding.  In every
    run the requests sent exceed the requests settled by one while the form
    is loading and by none otherwise, and while a request is outstanding a
    further submit cannot happen. *)
Theorem X6_no_double_submission tza now1 now2 es f out :
  Form.run tza (Form.start tza now1 now2) es = Some (f, out) ->
  length (List.filter Registration.is_fetch out) =
    (length (List.filter Form.is_settled es) +
     if isLoading (Form.state f) then 1 else 0)%nat /\
  (isLoading (Form.state f) = true <-> Form.awaiting f <> None) /\
  (Form.awaiting f <> None -> Form.step tza f Form.Submit = None).
Proof.
  intros Hr.
  pose proof (form_run_outstanding _ _ _ _ _ (form_start_inv tza now1 now2) Hr)
    as Hc.
  destruct (form_run_inv _ _ _ _ _ (form_start_inv tza now1 now2) Hr)
    as [(_ & _ & Hl) _].
  simpl in Hc. rewrite Hl.
  destruct (Form.awaiting f) as [b|] eqn:Ea.
  - repeat split; try congruence; try lia.
    intros _. simpl. rewrite Hl. reflexivity.
  - repeat split; try congruence; try lia; try discriminate.
Qed.

Lemma X6_no_double_submission_witness :
  match Form.run 0 (Form.start 0 0 0) Form.sample_run with
  | Some (f, out) =>
      length (List.filter Registration.is_fetch out) =
        (length (List.filter Form.is_settled Form.sample_run) +
         if isLoading (Form.state f) then 1 else 0)%nat /\
      (isLoading (Form.state f) = true <-> Form.awaiting f <> None) /\
      (Form.awaiting f <> None -> Form.step 0 f Form.Submit = None)
  | None => False
  end.
Proof. run_witness X6_no_double_submission. Defined.

Lemma highlighted_one st :
  exists p, Form.highlighted st = [p] /\ id p = selectedPlan st /\ In p plans.
Proof.
  unfold Form.highlighted.
  destruct (selectedPlan st); simpl; eexists; (split; [reflexivity|]);
    (split; [reflexivity|]); simpl; auto 10.
Qed.

(** X7: in every run of the form exactly one plan button is highlighted,
    and it is the button of the plan the draft carries. *)
Theorem X7_one_plan_highlighted tza now1 now2 es f out :
  Form.run tza (Form.start tza now1 now2) es = Some (f, out) ->
  exists p, Form.highlighted (Form.state f) = [p] /\
            id p = plan (formData (Form.state f)) /\ In p plans.
Proof.
  intros Hr.
  destruct (form_run_inv _ _ _ _ _ (form_start_inv tza now1 now2) Hr)
    as [(_ & Hs & _) _].
  destruct (highlighted_one (Form.state f)) as (p & H1 & H2 & H3).
  exists p. repeat split; auto. congruence.
Qed.

Lemma X7_one_plan_highlighted_witness :
  match Form.run 0 (Form.start 0 0 0) Form.sample_run with
  | Some (f, out) =>
      exists p, Form.highlighted (Form.state f) = [p] /\
                id p = plan (formData (Form.state f)) /\ In p plans
  | None => False
  end.
Proof. run_witness X7_one_plan_highlighted. Defined.

(** ** The membership window in a zone of fixed offset *)

Section Window.

Local Open Scope Z_scope.

(** [addMonths] computes on local time: in the zone of offset [tza] it does
    what it does in UTC to the instant moved by [tza]. *)
Lemma addMonths_local tza t n :
  addMonths tza t n = addMonths 0 (t + tza) n - tza.
Proof.
  unfold addMonths. destruct (n =? 0); [lia|].
  unfold getDate, getMonth, getFullYear, setMonth, setFullYear, LocalTime, UTC.
  rewrite !Z.add_0_r, !Z.sub_0_r.
  replace (MakeDate (MakeDay (YearFromTime (t + tza))
                       (MonthFromTime (t + tza) + n + 1) 0)
             (TimeWithinDay (t + tza)) - tza + tza)
    with (MakeDate (MakeDay (YearFromTime (t + tza))
                      (MonthFromTime (t + tza) + n + 1) 0)
            (TimeWithinDay (t + tza))) by lia.
  destruct (_ <=? _); reflexivity.
Qed.

Lemma civil_add_months_valid y m d n :
  valid_date y m d ->
  let '(y', m', d') := civil_add_months (y, m, d) n in valid_date y' m' d'.
Proof.
  intros [Hm Hd]. unfold civil_add_months, valid_date.
  pose proof (days_in_month_bounds (y + (m - 1 + n) / 12) ((m - 1 + n) mod 12 + 1)).
  split; [Z.div_mod_to_equations; lia | lia].
Qed.

(** In UTC, [addMonths] moves a valid date by calendar months and keeps the
    time of day. *)
Lemma addMonths_utc y m d T n :
  valid_date y m d -> 0 <= T < msPerDay ->
  addMonths 0 (MakeDate (days_from_civil y m d) T) n =
  MakeDate (Form.day_number (civil_add_months (y, m, d) n)) T.
Proof.
  intros Hv HT.
  destruct (fields_of_date y m d T Hv HT) as (Hy & Hmo & Hd & Htw).
  destruct Hv as [Hm Hdr].
  unfold addMonths, civil_add_months, Form.day_number.
  destruct (n =? 0) eqn:En.
  - apply Z.eqb_eq in En. subst n.
    replace ((m - 1 + 0) / 12) with 0 by (Z.div_mod_to_equations; lia).
    replace ((m - 1 + 0) mod 12 + 1) with m by (Z.div_mod_to_equations; lia).
    replace (y + 0) with y by lia.
    replace (Z.min d (days_in_month y m)) with d by lia. reflexivity.
  - set (k := m - 1 + n).
    set (y' := y + k / 12). set (m' := k mod 12 + 1).
    assert (Hm' : 1 <= m' <= 12) by (subst m'; Z.div_mod_to_equations; lia).
    pose proof (days_in_month_bounds y' m') as Hb.
    unfold getDate, getMonth, getFullYear, setMonth, setFullYear,
      LocalTime, UTC.
    rewrite !Z.add_0_r, !Z.sub_0_r. rewrite Hy, Hmo, Hd, Htw.
    replace (m - 1 + n + 1) with (k + 1) by (subst k; lia).
    rewrite MakeDay_end_of_month. fold y' m'.
    assert (Hend : valid_date y' m' (days_in_month y' m'))
      by (split; [assumption | lia]).
    destruct (fields_of_date y' m' _ T Hend HT) as (Ey & Em & Ed & _).
    rewrite Ed.
    destruct (days_in_month y' m' <=? d) eqn:Ec.
    + apply Z.leb_le in Ec.
      replace (Z.min d (days_in_month y' m')) with (days_in_month y' m') by lia.
      reflexivity.
    + apply Z.leb_gt in Ec. rewrite Ey, Em.
      rewrite MakeDay_in_range by assumption.
      replace (Z.min d (days_in_month y' m')) with d by lia. reflexivity.
Qed.

Lemma Day_shift D T tza :
  Day (MakeDate D T - tza) = D + (T - tza) / msPerDay.
Proof.
  unfold Day, MakeDate, msPerDay.
  replace (D * 86400000 + T - tza) with ((T - tza) + D * 86400000) by lia.
  rewrite Z.div_add by lia. lia.
Qed.

Lemma window_shift tza st p y m d T :
  valid_date y m d -> 0 <= T < msPerDay ->
  let st' := handlePlanSelect tza (Form.local_instant tza y m d T) st p in
  let k := (T - tza) / msPerDay in
  startDate (formData st') =
    civil_string (civil_from_days (days_from_civil y m d + k)) /\
  endDate (formData st') =
    civil_string (civil_from_days
      (Form.day_number (civil_add_months (y, m, d) (months p)) + k)).
Proof.
  intros Hv HT. unfold handlePlanSelect, with_plan, Form.local_instant.
  cbn [formData startDate endDate]. cbv zeta.
  rewrite !isoDate_civil. split.
  - now rewrite Day_shift.
  - rewrite addMonths_local.
    replace (MakeDate (days_from_civil y m d) T - tza + tza)
      with (MakeDate (days_from_civil y m d) T) by lia.
    rewrite addMonths_utc by assumption.
    now rewrite Day_shift.
Qed.

Lemma days_from_civil_bounds y m d :
  -1 <= y <= 10001 -> 1 <= m <= 12 -> 1 <= d <= 31 ->
  -1000000 <= days_from_civil y m d <= 4000000.
Proof.
  intros Hy Hm Hd. unfold days_from_civil.
  destruct (m <=? 2), (2 <? m); Z.div_mod_to_equations; lia.
Qed.

Lemma plan_months_bounds p : In p plans -> 1 <= months p <= 12.
Proof.
  intros H. repeat (destruct H as [<-|H]; [simpl; lia|]). destruct H.
Qed.

Lemma TimeClip_in_range t :
  Z.abs t <= 8640000000000000 -> Zoned.TimeClip t = Some t.
Proof.
  intros H. unfold Zoned.TimeClip.
  destruct (Z.leb_spec (Z.abs t) 8640000000000000); [reflexivity | lia].
Qed.

Section FixedOffset.

Variables (offset offset_local : Z -> Z) (tza : Z).
Hypothesis Hfixed : Zoned.fixed_offset offset offset_local tza.

Lemma zoned_getDate t : Zoned.getDate offset t = getDate tza t.
Proof.
  unfold Zoned.getDate, getDate, Zoned.LocalTime, LocalTime.
  now rewrite (proj1 Hfixed).
Qed.

Lemma zoned_getMonth t : Zoned.getMonth offset t = getMonth tza t.
Proof.
  unfold Zoned.getMonth, getMonth, Zoned.LocalTime, LocalTime.
  now rewrite (proj1 Hfixed).
Qed.

Lemma zoned_getFullYear t : Zoned.getFullYear offset t = getFullYear tza t.
Proof.
  unfold Zoned.getFullYear, getFullYear, Zoned.LocalTime, LocalTime.
  now rewrite (proj1 Hfixed).
Qed.

Lemma zoned_setMonth t mo da :
  Zoned.setMonth offset offset_local t mo da =
  Zoned.TimeClip (setMonth tza t mo da).
Proof.
  unfold Zoned.setMonth, setMonth, Zoned.LocalTime, LocalTime, Zoned.UTC, UTC.
  cbv zeta. now rewrite (proj1 Hfixed), (proj2 Hfixed).
Qed.

Lemma zoned_setFullYear t ye mo da :
  Zoned.setFullYear offset offset_local t ye mo da =
  Zoned.TimeClip (setFullYear tza t ye mo da).
Proof.
  unfold Zoned.setFullYear, setFullYear, Zoned.LocalTime, LocalTime,
    Zoned.UTC, UTC.
  cbv zeta. now rewrite (proj1 Hfixed), (proj2 Hfixed).
Qed.

(** In a zone of fixed offset, where the dates involved exist, the
    zone-aware [addMonths] is the one of the fixed offset. *)
Lemma zoned_addMonths_fixed now n :
  Z.abs (setMonth tza now (getMonth tza now + n + 1) 0) <= 8640000000000000 ->
  Z.abs (addMonths tza now n) <= 8640000000000000 ->
  Zoned.addMonths offset offset_local now n = Some (addMonths tza now n).
Proof.
  intros He Hr. unfold Zoned.addMonths, addMonths in *.
  destruct (n =? 0); [reflexivity|]. cbv zeta in *.
  rewrite zoned_setMonth, zoned_getMonth, zoned_getDate.
  rewrite (TimeClip_in_range _ He).
  rewrite zoned_getDate, zoned_getMonth, zoned_getFullYear.
  destruct (_ <=? _); [reflexivity|].
  rewrite zoned_setFullYear. apply TimeClip_in_range. exact Hr.
Qed.

End FixedOffset.

(** [handlePlanSelect] in a zone of fixed offset, at a local date of the
    years 0 to 9999 and for a plan of the table. *)
Lemma zoned_handlePlanSelect_fixed offset offset_local tza st p y m d T :
  Zoned.fixed_offset offset offset_local tza -> - msPerDay < tza < msPerDay ->
  valid_date y m d -> 0 <= y <= 9999 -> 0 <= T < msPerDay -> In p plans ->
  Zoned.handlePlanSelect offset offset_local
    (Form.local_instant tza y m d T) st p =
  Some (handlePlanSelect tza (Form.local_instant tza y m d T) st p).
Proof.
  intros Hf Hz Hv Hy HT Hp.
  pose proof (plan_months_bounds p Hp) as Hn.
  pose proof (days_in_month_bounds y m) as Hb.
  destruct (fields_of_date y m d T Hv HT) as (Ey & Em & Ed & Et).
  set (k := m - 1 + months p).
  set (y' := y + k / 12). set (m' := k mod 12 + 1).
  assert (Hv1 : 1 <= m <= 12 /\ 1 <= d <= 31) by (destruct Hv; lia).
  assert (Hy' : 0 <= y' <= 10000 /\ 1 <= m' <= 12)
    by (subst y' m' k; Z.div_mod_to_equations; lia).
  pose proof (days_in_month_bounds y' m') as Hb'.
  unfold Zoned.handlePlanSelect, handlePlanSelect.
  rewrite (zoned_addMonths_fixed offset offset_local tza Hf _ (months p));
    [reflexivity | |].
  - unfold setMonth, getMonth, LocalTime, UTC, Form.local_instant.
    replace (MakeDate (days_from_civil y m d) T - tza + tza)
      with (MakeDate (days_from_civil y m d) T) by lia.
    rewrite Ey, Em, Et.
    replace (m - 1 + months p + 1) with (k + 1) by (subst k; lia).
    rewrite MakeDay_end_of_month. fold y' m'.
    pose proof (days_from_civil_bounds y' m' (days_in_month y' m')
                  ltac:(lia) ltac:(lia) ltac:(lia)) as HD.
    unfold MakeDate, msPerDay in *. lia.
  - unfold Form.local_instant. rewrite addMonths_local.
    replace (MakeDate (days_from_civil y m d) T - tza + tza)
      with (MakeDate (days_from_civil y m d) T) by lia.
    rewrite addMonths_utc by assumption.
    unfold civil_add_months, Form.day_number. fold k y' m'.
    pose proof (days_from_civil_bounds y' m' (Z.min d (days_in_month y' m'))
                  ltac:(lia) ltac:(lia) ltac:(lia)) as HD.
    unfold MakeDate, msPerDay in *. lia.
Qed.

(** X9: in a zone of fixed offset [tza] (no daylight-saving change), for a
    plan of the table, at the instant whose local date is a valid date of the
    years 0 to 9999 and whose local time of day is [T], the window is set, and
    it is the local date and its calendar-correct end, both moved by
    floor((T - tza) / one day) days, because the months are added in local
    time and the dates are printed in UTC. *)
Theorem X9_window_in_zone offset offset_local tza st p y m d T :
  Zoned.fixed_offset offset offset_local tza -> - msPerDay < tza < msPerDay ->
  valid_date y m d -> 0 <= y <= 9999 -> 0 <= T < msPerDay -> In p plans ->
  exists st',
    Zoned.handlePlanSelect offset offset_local
      (Form.local_instant tza y m d T) st p = Some st' /\
    let k := (T - tza) / msPerDay in
    startDate (formData st') =
      civil_string (civil_from_days (days_from_civil y m d + k)) /\
    endDate (formData st') =
      civil_string (civil_from_days
        (Form.day_number (civil_add_months (y, m, d) (months p)) + k)).
Proof.
  intros Hf Hz Hv Hy HT Hp. eexists. split.
  - apply (zoned_handlePlanSelect_fixed offset offset_local tza st p y m d T);
      assumption.
  - exact (window_shift tza st p y m d T Hv HT).
Qed.

Lemma X9_window_in_zone_witness :
  exists st',
    Zoned.handlePlanSelect (fun _ => zone_india) (fun _ => zone_india)
      (Form.local_instant zone_india 2024 1 31 1800000)
      (initialState 0 0 0) one_month = Some st' /\
    let k := (1800000 - zone_india) / msPerDay in
    startDate (formData st') =
      civil_string (civil_from_days (days_from_civil 2024 1 31 + k)) /\
    endDate (formData st') =
      civil_string (civil_from_days
        (Form.day_number (civil_add_months (2024, 1, 31) (months one_month)) + k)).
Proof.
  assert (Hf : Zoned.fixed_offset (fun _ : Z => zone_india)
                 (fun _ : Z => zone_india) zone_india) by (split; reflexivity).
  assert (Hz : - msPerDay < zone_india < msPerDay)
    by (vm_compute; intuition discriminate).
  assert (Hv : valid_date 2024 1 31) by (vm_compute; intuition discriminate).
  assert (Hy : 0 <= 2024 <= 9999) by lia.
  assert (HT : 0 <= 1800000 < msPerDay) by (vm_compute; intuition discriminate).
  exact (X9_window_in_zone _ _ zone_india (initialState 0 0 0) one_month
           2024 1 31 1800000 Hf Hz Hv Hy HT one_month_in_plans).
Defined.

(** X8: in a zone of fixed offset [tza] (no daylight-saving change), for a
    plan of the table and a valid local date of the years 0 to 9999, when the
    local time of day is at least the offset and less than a day above it
    (in UTC: always; east of Greenwich: from [tza] after local midnight on),
    the window is set, starts on the local date and ends on the
    calendar-correct month addition: same day of month, or the last day of a
    shorter target month. *)
Theorem X8_window_correct offset offset_local tza st p y m d T :
  Zoned.fixed_offset offset offset_local tza -> - msPerDay < tza < msPerDay ->
  valid_date y m d -> 0 <= y <= 9999 -> 0 <= T < msPerDay -> In p plans ->
  tza <= T < msPerDay + tza ->
  exists st',
    Zoned.handlePlanSelect offset offset_local
      (Form.local_instant tza y m d T) st p = Some st' /\
    startDate (formData st') = civil_string (y, m, d) /\
    endDate (formData st') =
      civil_string (civil_add_months (y, m, d) (months p)).
Proof.
  intros Hf Hz Hv Hy HT Hp Hk. eexists. split.
  { apply (zoned_handlePlanSelect_fixed offset offset_local tza st p y m d T);
      assumption. }
  destruct (window_shift tza st p y m d T Hv HT) as [Hs He].
  cbv zeta in *. rewrite Hs, He.
  assert (Hk0 : (T - tza) / msPerDay = 0)
    by (apply Z.div_small; lia).
  rewrite Hk0, !Z.add_0_r.
  pose proof (civil_add_months_valid y m d (months p) Hv) as Hv'.
  destruct (civil_add_months (y, m, d) (months p)) as [[y' m'] d'].
  destruct Hv as [? ?], Hv' as [? ?]. unfold Form.day_number.
  rewrite (civil_roundtrip y m d) by assumption.
  rewrite (civil_roundtrip y' m' d') by assumption.
  split; reflexivity.
Qed.

Lemma X8_window_correct_witness :
  exists st',
    Zoned.handlePlanSelect (fun _ => zone_india) (fun _ => zone_india)
      (Form.local_instant zone_india 2024 1 31 43200000)
      (initialState 0 0 0) one_month = Some st' /\
    startDate (formData st') = civil_string (2024, 1, 31) /\
    endDate (formData st') =
      civil_string (civil_add_months (2024, 1, 31) (months one_month)).
Proof.
  assert (Hf : Zoned.fixed_offset (fun _ : Z => zone_india)
                 (fun _ : Z => zone_india) zone_india) by (split; reflexivity).
  assert (Hz : - msPerDay < zone_india < msPerDay)
    by (vm_compute; intuition discriminate).
  assert (Hv : valid_date 2024 1 31) by (vm_compute; intuition discriminate).
  assert (Hy : 0 <= 2024 <= 9999) by lia.
  assert (HT : 0 <= 43200000 < msPerDay) by (vm_compute; intuition discriminate).
  assert (Hk : zone_india <= 43200000 < msPerDay + zone_india)
    by (vm_compute; intuition discriminate).
  exact (X8_window_correct _ _ zone_india (initialState 0 0 0) one_month
           2024 1 31 43200000 Hf Hz Hv Hy HT one_month_in_plans Hk).
Defined.

End Window.

(** ** Storage, page loads and late answers *)

Arguments login_catch : simpl never.

Lemma step_storage_frame a e a' out k :
  k <> "token"%string -> step a e = Some (a', out) ->
  localStorage a' !! k = localStorage a !! k.
Proof.
  intros Hk. destruct e as [|o|c|o|]; simpl.
  - destruct (mounted a); [discriminate|]. unfold useEffect.
    destruct (localStorage a !! "token"%string) as [[|c t]|];
      intros [= <- <-]; auto.
  - destruct (verifyInFlight a); [|discriminate].
    destruct o as [st|]; simpl.
    + destruct (status_ok st); intros [= <- <-]; simpl; auto.
      apply lookup_delete_ne; auto.
    + intros [= <- <-]; simpl. apply lookup_delete_ne; auto.
  - destruct (mounted a && negb (isAdminLoggedIn a)); [|discriminate].
    intros [= <- <-]; auto.
  - destruct (loginsInFlight a); [discriminate|].
    destruct o as [|e|st [e|d]]; simpl; try (intros [= <- <-]; auto).
    destruct (status_ok st); intros [= <- <-]; simpl; auto.
    destruct (truthy (token d)); simpl; auto.
    apply lookup_insert_ne; auto.
  - destruct (mounted a && isAdminLoggedIn a); [|discriminate].
    intros [= <- <-]; simpl. apply lookup_delete_ne; auto.
Qed.

(** X10: the application touches one key of the storage.  In every run,
    from any state, every key other than [token] holds at the end what it
    held at the start. *)
Theorem X10_storage_frame es : forall a a' out k,
  k <> "token"%string -> run a es = Some (a', out) ->
  localStorage a' !! k = localStorage a !! k.
Proof.
  induction es as [|e es IH]; simpl; intros a a' out k Hk Hr.
  - injection Hr as <- <-. reflexivity.
  - destruct (step a e) as [[a1 o1]|] eqn:Hstep; [|discriminate].
    destruct (run a1 es) as [[a2 o2]|] eqn:Hrun; [|discriminate].
    injection Hr as <- <-.
    rewrite (IH _ _ _ k Hk Hrun). eapply step_storage_frame; eauto.
Qed.

Lemma X10_storage_frame_witness :
  match run (init (<["theme"%string := lit "dark"]> (stored "abc")))
          [Mount; VerifySettled VRejected] with
  | Some (a, _) => localStorage a !! "theme"%string = Some (lit "dark")
  | None => False
  end.
Proof.
  destruct (run _ _) as [[a out]|] eqn:E; [|vm_compute in E; discriminate E].
  rewrite (X10_storage_frame _ _ _ _ "theme"%string ltac:(discriminate) E).
  reflexivity.
Defined.

Lemma login_catch_shape e :
  exists m1 m2, login_catch e = [ConsoleError; SetError m1; ToastError m2].
Proof.
  unfold login_catch.
  repeat match goal with
         | |- context [match ?x with _ => _ end] => destruct x
         end; eauto.
Qed.

(** A login that fails, in whichever way. *)
Lemma login_failure_shape a o :
  call_result (LoginSettled o) = Some false ->
  (login_settled a o).1 = a /\
  exists pre m1 m2,
    (login_settled a o).2 = pre ++ [SetError m1; ToastError m2; SetIsLoading false] /\
    Forall (fun e => e = ClearTimeout \/ e = ConsoleError) pre.
Proof.
  intros Hr. destruct o as [|e|st [e|d]]; cbn -[login_catch] in *.
  - split; auto.
    destruct (login_catch_shape (JsError "AbortError" (lit "The operation was aborted.")))
      as (m1 & m2 & ->).
    exists [ConsoleError], m1, m2. split; [reflexivity|].
    constructor; [right; reflexivity | constructor].
  - split; auto. destruct (login_catch_shape e) as (m1 & m2 & ->).
    exists [ConsoleError], m1, m2. split; [reflexivity|].
    constructor; [right; reflexivity | constructor].
  - split; auto. destruct (login_catch_shape e) as (m1 & m2 & ->).
    exists [ClearTimeout; ConsoleError], m1, m2. split; [reflexivity|].
    constructor; [left; reflexivity|].
    constructor; [right; reflexivity | constructor].
  - injection Hr as Hr. rewrite Hr. cbn. split; auto.
    exists [ClearTimeout]. do 2 eexists. split; [reflexivity|].
    constructor; [left; reflexivity | constructor].
Qed.

Lemma login_settled_no_verify a o :
  List.filter Admin.is_verify (login_settled a o).2 = [] /\
  mounted (login_settled a o).1 = mounted a.
Proof.
  destruct (call_result (LoginSettled o)) as [[|]|] eqn:Hc.
  - destruct o as [|e|st [e|d]]; simpl in Hc; try discriminate.
    injection Hc as Hc. simpl. rewrite Hc. simpl. split; auto.
    destruct (truthy (token d)); auto.
  - destruct (login_failure_shape a o Hc) as (Ha & pre & m1 & m2 & Ho & Hpre).
    rewrite Ha, Ho. split; auto.
    rewrite List.filter_app. simpl. rewrite app_nil_r.
    clear -Hpre. induction Hpre as [|x l [->| ->] _ IH]; simpl; auto.
  - destruct o as [|e|st [e|d]]; discriminate.
Qed.

Lemma mounted_step_no_verify a e a' out :
  mounted a = true -> step a e = Some (a', out) ->
  List.filter Admin.is_verify out = [] /\ mounted a' = true.
Proof.
  intros Hm Hstep. destruct e as [|o|c|o|]; simpl in Hstep.
  - rewrite Hm in Hstep. discriminate.
  - destruct (verifyInFlight a); [|discriminate].
    destruct o as [st|]; simpl in Hstep.
    + destruct (status_ok st); injection Hstep as <- <-; auto.
    + injection Hstep as <- <-; auto.
  - destruct (mounted a && negb (isAdminLoggedIn a)); [|discriminate].
    injection Hstep as <- <-. auto.
  - destruct (loginsInFlight a) as [|n]; [discriminate|].
    injection Hstep as Hstep.
    destruct (login_settled_no_verify (set_loginsInFlight a n) o) as [H1 H2].
    rewrite Hstep in H1, H2. simpl in H1, H2. split; congruence.
  - destruct (mounted a && isAdminLoggedIn a); [|discriminate].
    injection Hstep as <- <-. auto.
Qed.

Lemma mounted_run_no_verify es : forall a a' out,
  mounted a = true -> run a es = Some (a', out) ->
  List.filter Admin.is_verify out = [] /\ mounted a' = true.
Proof.
  induction es as [|e es IH]; simpl; intros a a' out Hm Hr.
  - injection Hr as <- <-. auto.
  - destruct (step a e) as [[a1 o1]|] eqn:Hstep; [|discriminate].
    destruct (run a1 es) as [[a2 o2]|] eqn:Hrun; [|discriminate].
    injection Hr as <- <-.
    destruct (mounted_step_no_verify _ _ _ _ Hm Hstep) as [Hv Hm1].
    destruct (IH _ _ _ Hm1 Hrun) as [Hv2 Hm2].
    rewrite List.filter_app, Hv, Hv2. auto.
Qed.

(** Before the mount effect has run nothing but the mount effect can
    happen. *)
Lemma first_event_is_mount storage e a out :
  step (init storage) e = Some (a, out) -> e = Mount.
Proof. destruct e; simpl; try discriminate; auto. Qed.

(** X11: a page load verifies at most once.  In every run the verification
    requests sent are: one, carrying the stored token, when the page was
    loaded with a non-empty token in storage, and none when the token was
    missing or empty; no answer, login or logout makes the application
    verify again. *)
Theorem X11_one_verification storage es a out :
  run (init storage) es = Some (a, out) ->
  List.filter Admin.is_verify out =
    if mounted a then
      match storage !! "token"%string with
      | Some (c :: t) => [Fetch (verify_request (c :: t))]
      | _ => []
      end
    else [].
Proof.
  destruct es as [|e es]; simpl.
  - intros [= <- <-]. reflexivity.
  - destruct (step (init storage) e) as [[a1 o1]|] eqn:Hstep; [|discriminate].
    pose proof (first_event_is_mount _ _ _ _ Hstep) as ->.
    destruct (run a1 es) as [[a2 o2]|] eqn:Hrun; [|discriminate].
    intros [= <- <-]. simpl in Hstep. unfold useEffect in Hstep. simpl in Hstep.
    rewrite List.filter_app.
    destruct (storage !! "token"%string) as [[|c t]|];
      injection Hstep as <- <-;
      (eapply mounted_run_no_verify in Hrun as [-> ->]; [|reflexivity]);
      reflexivity.
Qed.

Lemma X11_one_verification_witness :
  match run (init (stored "abc"))
          [Mount; LoginSubmit sample_credentials; VerifySettled VRejected;
           LoginSettled (LResolved 200 (inr {| token := Some (lit "xyz");
                                               message := None |}));
           Logout] with
  | Some (a, out) =>
      List.filter Admin.is_verify out = [Fetch (verify_request (lit "abc"))]
  | None => False
  end.
Proof.
  destruct (run _ _) as [[a out]|] eqn:E; [|vm_compute in E; discriminate E].
  rewrite (X11_one_verification _ _ _ _ E).
  assert (Hm : mounted a = true).
  { vm_compute in E. injection E as <- _. reflexivity. }
  rewrite Hm. reflexivity.
Defined.

(** X12: a login that fails in any way (the timer fires, the request is
    rejected, the body does not parse, the status is not 2xx) leaves the
    session and the storage as they were, shows exactly one toast, an error,
    and ends by switching the loading flag off.  After a non-2xx answer the
    inline error and the toast both carry the server's message, or
    [Invalid email or password] when the message is missing or empty. *)
Theorem X12_failed_login a o :
  call_result (LoginSettled o) = Some false ->
  (login_settled a o).1 = a /\
  (exists m, Admin.toasts (login_settled a o).2 = [ToastError m]) /\
  last (login_settled a o).2 = Some (SetIsLoading false) /\
  (forall st d, o = LResolved st (inr d) ->
     let msg := message_or (message d) (lit "Invalid email or password") in
     (login_settled a o).2 =
       [ClearTimeout; SetError msg; ToastError msg; SetIsLoading false]).
Proof.
  intros Hc.
  destruct (login_failure_shape a o Hc) as (Ha & pre & m1 & m2 & Ho & Hpre).
  split; [exact Ha|]. split; [|split].
  - exists m2. rewrite Ho. unfold Admin.toasts. rewrite List.filter_app.
    replace (List.filter _ pre) with (@nil Effect); [reflexivity|].
    clear -Hpre. induction Hpre as [|x l [->| ->] _ IH]; simpl; auto.
  - rewrite Ho.
    change [SetError m1; ToastError m2; SetIsLoading false]
      with ([SetError m1; ToastError m2] ++ [SetIsLoading false]).
    rewrite app_assoc. apply last_snoc.
  - intros st d ->. simpl in Hc. injection Hc as Hc. simpl. rewrite Hc.
    reflexivity.
Qed.

Lemma X12_failed_login_witness :
  (login_settled (init (stored "abc")) LTimeout).1 = init (stored "abc").
Proof.
  apply (X12_failed_login (init (stored "abc")) LTimeout). reflexivity.
Defined.

(** X13: what a successful login stores is what the next page load
    presents.  After a 2xx answer carrying a non-empty token, a new page
    load sends one verification request whose [Authorization] header is
    [Bearer] followed by that token, and when it is answered with a 2xx
    status the session is authenticated with the token still stored. *)
Theorem X13_login_then_reload a st d c t st2 :
  status_ok st = true -> token d = Some (c :: t) -> status_ok st2 = true ->
  let a1 := (login_settled a (LResolved st (inr d))).1 in
  exists a2,
    run (Admin.reload a1) [Mount; VerifySettled (VResolved st2)] =
      Some (a2, [Fetch (verify_request (c :: t))]) /\
    authorization (verify_request (c :: t)) = Some (lit "Bearer " ++ c :: t) /\
    session_state a2 = authenticated /\
    localStorage a2 !! "token"%string = Some (c :: t).
Proof.
  intros Hok Ht Hok2. cbv zeta. unfold login_settled. rewrite Hok, Ht. simpl.
  unfold Admin.reload. simpl.
  unfold useEffect. simpl. rewrite lookup_insert_eq. simpl. rewrite Hok2. simpl.
  eexists. split; [reflexivity|]. simpl.
  repeat split. apply lookup_insert_eq.
Qed.

Lemma X13_login_then_reload_witness :
  exists a2,
    run (Admin.reload
           (login_settled (init ∅)
              (LResolved 200 (inr {| token := Some (lit "abc");
                                     message := None |}))).1)
      [Mount; VerifySettled (VResolved 204)] =
      Some (a2, [Fetch (verify_request (lit "abc"))]).
Proof.
  destruct (X13_login_then_reload (init ∅) 200%N
              {| token := Some (lit "abc"); message := None |}
              97%N (lit "bc") 204%N eq_refl eq_refl eq_refl)
    as (a2 & H & _).
  exists a2. exact H.
Defined.

(** X14: a token that was given up is not presented again.  After a logout,
    and after a verification that failed by status or by rejection, the next
    page load sends no request and leaves the session anonymous. *)
Theorem X14_reload_after_logout a o :
  (exists a', run (Admin.reload (handleLogout a)) [Mount] = Some (a', []) /\
              session_state a' = anonymous) /\
  (call_result (VerifySettled o) = Some false ->
   exists a', run (Admin.reload (verify_settled a o).1) [Mount] = Some (a', []) /\
              session_state a' = anonymous).
Proof.
  split.
  - unfold Admin.reload, handleLogout. simpl. unfold useEffect. simpl.
    rewrite lookup_delete_eq. eexists. split; reflexivity.
  - intros Hc. unfold Admin.reload.
    assert (Hs : localStorage (verify_settled a o).1 =
                 delete "token"%string (localStorage a)).
    { destruct o as [st|]; simpl in *; [|reflexivity].
      injection Hc as Hc. rewrite Hc. reflexivity. }
    simpl. unfold useEffect. simpl. rewrite Hs, lookup_delete_eq.
    eexists. split; reflexivity.
Qed.

Lemma X14_reload_after_logout_witness :
  exists a', run (Admin.reload (verify_settled (init (stored "abc"))
                                  (VResolved 401)).1) [Mount] = Some (a', []) /\
             session_state a' = anonymous.
Proof.
  apply (proj2 (X14_reload_after_logout (init (stored "abc")) (VResolved 401))).
  reflexivity.
Defined.

(** X15: a verification answered late overrides what happened meanwhile.
    When a login succeeds while the verification of an older token is in
    flight and that verification then fails, the session ends anonymous and
    the token the login has just stored is removed.  When the admin logs in
    and out again while the verification is in flight and it then succeeds,
    the session ends authenticated with no token in storage. *)
Theorem X15_late_verification storage c t cr st d c' t' o st2 :
  storage !! "token"%string = Some (c :: t) ->
  status_ok st = true -> token d = Some (c' :: t') ->
  (call_result (VerifySettled o) = Some false ->
   exists a out,
     run (init storage)
       [Mount; LoginSubmit cr; LoginSettled (LResolved st (inr d));
        VerifySettled o] = Some (a, out) /\
     session_state a = anonymous /\
     localStorage a !! "token"%string = None) /\
  (status_ok st2 = true ->
   exists a out,
     run (init storage)
       [Mount; LoginSubmit cr; LoginSettled (LResolved st (inr d)); Logout;
        VerifySettled (VResolved st2)] = Some (a, out) /\
     session_state a = authenticated /\
     adminRoute a = AdminPanel /\
     localStorage a !! "token"%string = None).
Proof.
  intros Hs Hok Ht. split.
  - intros Hc. simpl. unfold useEffect. simpl. rewrite Hs. simpl.
    rewrite Hok, Ht. simpl.
    destruct o as [st'|]; simpl in *.
    + injection Hc as Hc. rewrite Hc. simpl.
      eexists _, _. split; [reflexivity|]. simpl. split; auto.
      apply lookup_delete_eq.
    + eexists _, _. split; [reflexivity|]. simpl. split; auto.
      apply lookup_delete_eq.
  - intros Hok2. simpl. unfold useEffect. simpl. rewrite Hs. simpl.
    rewrite Hok, Ht. simpl. rewrite Hok2. simpl.
    eexists _, _. split; [reflexivity|]. simpl. repeat split.
    apply lookup_delete_eq.
Qed.

Lemma X15_late_verification_witness :
  exists a out,
    run (init (stored "old"))
      [Mount; LoginSubmit sample_credentials;
       LoginSettled (LResolved 200 (inr {| token := Some (lit "new");
                                           message := None |}));
       Logout; VerifySettled (VResolved 200)] = Some (a, out) /\
    session_state a = authenticated /\
    adminRoute a = AdminPanel /\
    localStorage a !! "token"%string = None.
Proof.
  apply (proj2 (X15_late_verification (stored "old") 111%N (lit "ld")
                  sample_credentials 200%N
                  {| token := Some (lit "new"); message := None |}
                  110%N (lit "ew") VRejected 200%N eq_refl eq_refl eq_refl)).
  reflexivity.
Defined.

(** ** The earlier versions *)

(** X16: when the request settles before the 10 s timer of the present
    login handler fires, the earlier and the present handler leave the same
    session and storage, except after a 2xx answer without a non-empty
    token: there the earlier one stores what [String] makes of the missing
    token, the text [undefined], and the next page load presents it as a
    bearer token, while the present one leaves the storage as it was.  When
    the timer fires first the present handler leaves session and storage as
    they were, whereas the earlier one, which has no timer, authenticates and
    stores the token once a 2xx answer with a token arrives. *)
Theorem X16_legacy_login a o :
  ((forall st d, o = Legacy.LResolved st (inr d) -> status_ok st = true ->
                 truthy (token d) = true) ->
   (Legacy.login_settled a o).1 = (login_settled a (Legacy.present o)).1) /\
  (forall st d, o = Legacy.LResolved st (inr d) -> status_ok st = true ->
                token d = None ->
     localStorage (Legacy.login_settled a o).1 !! "token"%string =
       Some (lit "undefined") /\
     localStorage (login_settled a (Legacy.present o)).1 = localStorage a /\
     exists a',
       run (Admin.reload (Legacy.login_settled a o).1) [Mount] =
         Some (a', [Fetch (verify_request (lit "undefined"))])) /\
  ((login_settled a LTimeout).1 = a /\
   signal (Legacy.login_request sample_credentials) = false /\
   Forall (fun e => forall ms, e <> SetTimeout ms)
     (Legacy.login_submit sample_credentials) /\
   forall st d c t, o = Legacy.LResolved st (inr d) -> status_ok st = true ->
                    token d = Some (c :: t) ->
     session_state (Legacy.login_settled a o).1 = authenticated /\
     localStorage (Legacy.login_settled a o).1 !! "token"%string =
       Some (c :: t)).
Proof.
  split; [|split].
  - intros H. destruct o as [e|st [e|d]]; simpl; auto.
    destruct (status_ok st) eqn:Hok; [|reflexivity].
    specialize (H st d eq_refl Hok). rewrite H.
    destruct (token d) as [[|c t]|]; try discriminate. reflexivity.
  - intros st d -> Hok Ht. simpl. rewrite Hok, Ht. simpl.
    split; [apply lookup_insert_eq|]. split; [reflexivity|].
    unfold Admin.reload. simpl. unfold useEffect. simpl.
    rewrite lookup_insert_eq. eexists. reflexivity.
  - split; [reflexivity|]. split; [reflexivity|]. split.
    + repeat constructor; intros ms; discriminate.
    + intros st d c t -> Hok Ht. simpl. rewrite Hok, Ht. simpl.
      split; [reflexivity | apply lookup_insert_eq].
Qed.

Lemma X16_legacy_login_witness :
  localStorage
    (Legacy.login_settled (init ∅)
       (Legacy.LResolved 200 (inr {| token := None; message := None |}))).1
    !! "token"%string = Some (lit "undefined").
Proof.
  apply (proj1 (proj2 (X16_legacy_login (init ∅)
                  (Legacy.LResolved 200 (inr {| token := None; message := None |}))))
           200%N {| token := None; message := None |} eq_refl eq_refl eq_refl).
Defined.

(** X17: the earlier registration form validates nothing and hides
    nothing.  Every submission sends one request whatever the draft holds,
    and shows one toast; after a non-2xx answer with body [{message}] the
    toast is the server's message as it is, or [Registration failed] when
    the message is empty. *)
Theorem X17_legacy_registration server fd :
  List.filter Legacy.is_fetch (Legacy.handleSubmit server fd) =
    [Legacy.Fetch register_url "POST" (Legacy.formDataToSend fd)] /\
  (exists t, Legacy.toasts (Legacy.handleSubmit server fd) = [t]) /\
  (forall st message,
     server (Legacy.formDataToSend fd) =
       Resolved {| status := st; json := inr message |} ->
     status_ok st = false ->
     Legacy.toasts (Legacy.handleSubmit server fd) =
       [Legacy.ToastError (or_default message (lit "Registration failed"))]).
Proof.
  unfold Legacy.handleSubmit.
  split; [|split].
  - destruct (server (Legacy.formDataToSend fd)) as [e|r]; [reflexivity|].
    destruct (ok r), (json r); reflexivity.
  - destruct (server (Legacy.formDataToSend fd)) as [e|r];
      [eexists; reflexivity|].
    destruct (ok r), (json r); eexists; reflexivity.
  - intros st message -> Hok. unfold ok. simpl. rewrite Hok. reflexivity.
Qed.

Lemma X17_legacy_registration_witness :
  Legacy.toasts
    (Legacy.handleSubmit (answering 500 "Internal Server Error")
       {| Legacy.name := []; Legacy.email := []; Legacy.phone := [];
          Legacy.dob := []; Legacy.photo := None; Legacy.plan := Legacy.L1month;
          Legacy.startDate := []; Legacy.endDate := [];
          Legacy.paymentMethod := online |}) =
    [Legacy.ToastError (lit "Internal Server Error")].
Proof.
  apply (proj2 (proj2 (X17_legacy_registration
           (answering 500 "Internal Server Error")
           {| Legacy.name := []; Legacy.email := []; Legacy.phone := [];
              Legacy.dob := []; Legacy.photo := None; Legacy.plan := Legacy.L1month;
              Legacy.startDate := []; Legacy.endDate := [];
              Legacy.paymentMethod := online |}))
           500%N (lit "Internal Server Error") eq_refl eq_refl).
Defined.

(** ** What else one submission shows and sends *)

(** X18: when the request is rejected by the network, or answered with a
    body that does not parse, whatever the status, the user is shown the
    text of that error only if it contains [email] or [phone], and the fixed
    registration-failed text otherwise. *)
Theorem X18_transport_failure server fd n m :
  test emailRegex (email fd) = true -> test phoneRegex (phone fd) = true ->
  (server (formDataToSend fd) = Rejected (JsError n m) \/
   exists st, server (formDataToSend fd) =
                Resolved {| status := st; json := inl (JsError n m) |}) ->
  toasts (handleSubmit server fd) =
    [Registration.ToastError
       (if includes m (lit "email") || includes m (lit "phone")
        then m else generic_failure_message)].
Proof.
  intros He Hp Hs. rewrite handleSubmit_split.
  pose proof (submit_start_shape fd) as Hsh. rewrite He, Hp in Hsh.
  simpl in Hsh. rewrite Hsh.
  assert (Hset : Form.submit_settled (server (formDataToSend fd)) =
                 catch_block (JsError n m) ++ [Registration.SetIsLoading false]).
  { unfold Form.submit_settled, Form.after_fetch.
    destruct Hs as [-> | [st ->]]; [reflexivity|].
    unfold ok, not_ok_block. cbn -[catch_block].
    destruct (status_ok st); reflexivity. }
  rewrite Hset, toasts_app. simpl.
  unfold catch_block.
  destruct (includes m (lit "email")); [reflexivity|].
  destruct (includes m (lit "phone")); reflexivity.
Qed.

Lemma X18_transport_failure_witness :
  toasts (handleSubmit (fun _ => Rejected (JsError "TypeError" (lit "Failed to fetch")))
            sample_draft) =
    [Registration.ToastError generic_failure_message].
Proof.
  exact (X18_transport_failure
           (fun _ => Rejected (JsError "TypeError" (lit "Failed to fetch")))
           sample_draft "TypeError" (lit "Failed to fetch")
           eq_refl eq_refl (or_introl eq_refl)).
Defined.

Lemma plain_forall_no_at s :
  Forall (fun c => plain c = true) s -> count_occ N.eq_dec s AT = 0%nat.
Proof.
  induction 1 as [|c s Hc _ IH]; simpl; [reflexivity|].
  destruct (N.eq_dec c AT) as [->|]; [discriminate Hc | exact IH].
Qed.

Lemma plain_not_whitespace c : plain c = true -> is_whitespace c = false.
Proof.
  unfold plain. destruct (is_whitespace c); [discriminate | reflexivity].
Qed.

(** X19: an address the e-mail validator accepts contains exactly one [@]
    and no whitespace, starts and ends with a character other than [@], and
    is at least five characters long. *)
Theorem X19_accepted_email s :
  test emailRegex s = true ->
  count_occ N.eq_dec s AT = 1%nat /\
  Forall (fun c => is_whitespace c = false) s /\
  (5 <= length s)%nat /\
  head s <> Some AT /\ last s <> Some AT.
Proof.
  intros H. apply emailRegex_shape in H
    as (u & v & w & -> & Hu & Hv & Hw & Fu & Fv & Fw).
  assert (Pd : plain DOT = true) by reflexivity.
  split; [|split; [|split; [|split]]].
  - rewrite count_occ_app. simpl.
    destruct (N.eq_dec AT AT) as [_|]; [|congruence].
    rewrite count_occ_app. simpl.
    destruct (N.eq_dec DOT AT) as [E|_]; [discriminate E|].
    rewrite !plain_forall_no_at by assumption. reflexivity.
  - apply Forall_app. split.
    + eapply Forall_impl; [exact Fu|]. apply plain_not_whitespace.
    + constructor; [reflexivity|]. apply Forall_app. split.
      * eapply Forall_impl; [exact Fv|]. apply plain_not_whitespace.
      * constructor; [reflexivity|].
        eapply Forall_impl; [exact Fw|]. apply plain_not_whitespace.
  - rewrite length_app. simpl. rewrite length_app. simpl.
    destruct u, v, w; simpl; try congruence; lia.
  - destruct u as [|c u]; [congruence|]. simpl. intros [= ->].
    inversion Fu; subst. discriminate.
  - rewrite app_comm_cons, app_assoc.
    destruct w as [|c w] using rev_ind; [congruence|].
    rewrite app_comm_cons, app_assoc, last_snoc. intros [= ->].
    apply Forall_app in Fw as [_ Fc]. inversion Fc; subst. discriminate.
Qed.

Lemma X19_accepted_email_witness :
  count_occ N.eq_dec (lit "a@b.co") AT = 1%nat.
Proof. apply (X19_accepted_email (lit "a@b.co")). reflexivity. Defined.

(** X20: whatever the draft, the body has nine parts, named by the keys of
    the draft in their order of declaration; the photo is the only part that
    can be binary, and it is binary exactly when the draft has a photo. *)
Theorem X20_body_parts fd :
  map fst (formDataToSend fd) = keys /\
  List.filter (fun p => match p.2 with Binary _ => true | Text _ => false end)
    (formDataToSend fd) =
    match photo fd with
    | Some f => [("photo"%string, Binary f)]
    | None => []
    end.
Proof.
  unfold formDataToSend, append_key, keys, get. simpl.
  destruct (photo fd); split; reflexivity.
Qed.
